(** * homeplug_exporter: the HomePlug MME codec and the discovery cycle

    A shallow embedding of [homeplug_exporter.go]: the frame codec
    ([HomeplugFrame]), the network-info payload parser
    ([HomeplugNetworkInfo], [HomeplugNetworkStatus],
    [HomeplugStationStatus]), the receive loop ([read_homeplug]), the
    sender ([write_homeplug]), the collection cycle
    ([get_homeplug_netinfo]) and the rate conversion of
    [Exporter.collect].

    Go values are modelled as follows.
    - [byte] is [Byte.byte]; a slice [[]byte] is a [list byte] (a nil
      slice and an empty one are both [[]]); fixed arrays [[2]byte],
      [[3]byte] are tuples, [[7]byte] is a list of length 7.
    - A run-time panic (index or slice bounds out of range) is the
      [Panic] outcome of the [exec] monad; an [error] value returned by
      a function is ordinary data.
    - A method with a pointer receiver takes the receiver and returns
      its new value next to the method's results.
    - Calls to the logger are left out: they return nothing that the
      program looks at. *)

From Stdlib Require Import String.
From Stdlib Require Import List ZArith Lia Bool.
From Stdlib.Strings Require Import Byte.
Import ListNotations.

(** ** The part of the Go run time that the program uses *)

Module Go.

Inductive runtime_error : Set :=
| IndexOutOfRange
| SliceBoundsOutOfRange.

Inductive exec (A : Type) : Type :=
| Ret (a : A)
| Panic (e : runtime_error).
Arguments Ret {A} a.
Arguments Panic {A} e.

Definition bind {A B : Type} (m : exec A) (k : A -> exec B) : exec B :=
  match m with
  | Ret a => k a
  | Panic e => Panic e
  end.

(** Values of the interface type [error] that the program meets. *)
Inductive error : Set :=
| ErrUnexpectedEOF                            (* io.ErrUnexpectedEOF *)
| ErrTimeout                                  (* read deadline exceeded *)
| ErrIO (msg : string)                        (* any other I/O failure *)
| Errorf (format : string) (cause : error).   (* fmt.Errorf("...: %v", err) *)

(** [b[i]] *)
Definition index (b : list byte) (i : nat) : exec byte :=
  match nth_error b i with
  | Some x => Ret x
  | None => Panic IndexOutOfRange
  end.

Fixpoint update (b : list byte) (i : nat) (v : byte) : list byte :=
  match b, i with
  | [], _ => []
  | _ :: b', O => v :: b'
  | x :: b', S i' => x :: update b' i' v
  end.

(** [b[i] = v] *)
Definition set_index (b : list byte) (i : nat) (v : byte) : exec (list byte) :=
  if i <? length b then Ret (update b i v) else Panic IndexOutOfRange.

(** [b[lo:]]; the slices of this program have their capacity equal to
    their length wherever the bound is not already checked. *)
Definition slice_from (b : list byte) (lo : nat) : exec (list byte) :=
  if lo <=? length b then Ret (skipn lo b) else Panic SliceBoundsOutOfRange.

(** [b[lo:hi]] *)
Definition slice (b : list byte) (lo hi : nat) : exec (list byte) :=
  if (lo <=? hi) && (hi <=? length b)
  then Ret (firstn (hi - lo) (skipn lo b))
  else Panic SliceBoundsOutOfRange.

(** [make([]byte, n)] *)
Definition make (n : nat) : list byte := repeat x00 n.

(** [copy(dst, src)]: the new contents of [dst]; the first
    [min (len dst) (len src)] bytes come from [src]. *)
Definition copy (dst src : list byte) : list byte :=
  firstn (length dst) src ++ skipn (length src) dst.

(** [copy(b[lo:], src)], seen through [b], which shares its storage
    with [b[lo:]]. *)
Definition copy_at (b : list byte) (lo : nat) (src : list byte) : exec (list byte) :=
  bind (slice_from b lo) (fun tl => Ret (firstn lo b ++ copy tl src)).

(** [int(x)] for a byte [x] *)
Definition int (x : byte) : nat := N.to_nat (Byte.to_N x).

End Go.

Import Go.

Notation "x <- m ;; k" := (Go.bind m (fun x => k))
  (at level 61, m at next level, right associativity).
Notation "' p <- m ;; k" := (Go.bind m (fun x => match x with p => k end))
  (at level 61, p pattern, m at next level, right associativity).

(** ** Protocol constants *)

Definition etherType : Z := 0x88E1.
Definition hpVersion : byte := x00.
Definition nwInfoReq : byte * byte := (xa0, x38).
Definition nwInfoCnf : byte * byte := (xa0, x39).
Definition hpVendor : byte * byte * byte := (x00, xb0, x52).

(** [net.HardwareAddr] is a byte slice. *)
Definition HardwareAddr : Set := list byte.

(** ** FrameCodec: [HomeplugFrame] *)

Module HomeplugFrame.

Record t : Set := mk {
  Version : byte;                  (* [1]byte *)
  MMEType : byte * byte;           (* [2]byte *)
  Vendor  : byte * byte * byte;    (* [3]byte *)
  Payload : list byte
}.

(** The zero value, [var h HomeplugFrame]. *)
Definition zero : t := mk x00 (x00, x00) (x00, x00, x00) [].

Definition length (h : t) : nat := 6 + List.length (Payload h).

(** [h.read(b)]: fills [b]; returns the new [b] with the results. *)
Definition read (h : t) (b : list byte) : exec (list byte * (nat * option error)) :=
  b <- set_index b 0 (Version h) ;;
  b <- set_index b 1 (snd (MMEType h)) ;;
  b <- set_index b 2 (fst (MMEType h)) ;;
  b <- set_index b 3 (fst (fst (Vendor h))) ;;
  b <- set_index b 4 (snd (fst (Vendor h))) ;;
  b <- set_index b 5 (snd (Vendor h)) ;;
  b <- copy_at b 6 (Payload h) ;;
  Ret (b, (List.length b, None)).

Definition MarshalBinary (h : t) : exec (list byte * option error) :=
  let b := make (length h) in
  '(b, (_, err)) <- read h b ;;
  Ret (b, err).

Definition set_Version (h : t) (v : byte) : t :=
  mk v (MMEType h) (Vendor h) (Payload h).
Definition set_MMEType0 (h : t) (v : byte) : t :=
  mk (Version h) (v, snd (MMEType h)) (Vendor h) (Payload h).
Definition set_MMEType1 (h : t) (v : byte) : t :=
  mk (Version h) (fst (MMEType h), v) (Vendor h) (Payload h).
Definition set_Vendor0 (h : t) (v : byte) : t :=
  mk (Version h) (MMEType h) (v, snd (fst (Vendor h)), snd (Vendor h)) (Payload h).
Definition set_Vendor1 (h : t) (v : byte) : t :=
  mk (Version h) (MMEType h) (fst (fst (Vendor h)), v, snd (Vendor h)) (Payload h).
Definition set_Vendor2 (h : t) (v : byte) : t :=
  mk (Version h) (MMEType h) (fst (Vendor h), v) (Payload h).
Definition set_Payload (h : t) (p : list byte) : t :=
  mk (Version h) (MMEType h) (Vendor h) p.

(** [h.UnmarshalBinary(b)]: the new [h] and the returned error. *)
Definition UnmarshalBinary (h : t) (b : list byte) : exec (t * option error) :=
  if List.length b <? 6 then Ret (h, Some ErrUnexpectedEOF)
  else
    let bb := make (List.length b - 6) in
    tl <- slice_from b 6 ;;
    let bb := copy bb tl in
    x <- index b 0 ;; let h := set_Version h x in
    x <- index b 1 ;; let h := set_MMEType1 h x in
    x <- index b 2 ;; let h := set_MMEType0 h x in
    x <- index b 3 ;; let h := set_Vendor0 h x in
    x <- index b 4 ;; let h := set_Vendor1 h x in
    x <- index b 5 ;; let h := set_Vendor2 h x in
    let h := set_Payload h bb in
    Ret (h, None).

End HomeplugFrame.

(** ** NetworkInfoParser: the records of a network-info confirm *)

Module HomeplugNetworkStatus.

Record t : Set := mk {
  NetworkID  : list byte;          (* [7]byte *)
  ShortID    : byte;
  TEI        : byte;
  Role       : byte;
  CCoAddress : HardwareAddr;
  CCoTEI     : byte
}.

(** [var ns HomeplugNetworkStatus] *)
Definition zero : t := mk (make 7) x00 x00 x00 [] x00.

(** [s.UnmarshalBinary(b)]: the new [s], the size read and the error. *)
Definition UnmarshalBinary (s : t) (b : list byte) : exec (t * (nat * option error)) :=
  if length b <? 17 then Ret (s, (0, Some ErrUnexpectedEOF))
  else
    src <- slice b 0 7 ;;
    let id := copy (NetworkID s) src in
    sid <- index b 7 ;;
    tei <- index b 8 ;;
    role <- index b 9 ;;
    cco <- slice b 10 16 ;;
    ccotei <- index b 16 ;;
    Ret (mk id sid tei role cco ccotei, (17, None)).

End HomeplugNetworkStatus.

Module HomeplugStationStatus.

Record t : Set := mk {
  Address        : HardwareAddr;
  TEI            : byte;
  BridgedAddress : HardwareAddr;
  TxRate         : byte;
  RxRate         : byte
}.

(** [var ss HomeplugStationStatus] *)
Definition zero : t := mk [] x00 [] x00 x00.

Definition UnmarshalBinary (s : t) (b : list byte) : exec (t * (nat * option error)) :=
  if length b <? 15 then Ret (s, (0, Some ErrUnexpectedEOF))
  else
    addr <- slice b 0 6 ;;
    tei <- index b 6 ;;
    bridged <- slice b 7 13 ;;
    tx <- index b 13 ;;
    rx <- index b 14 ;;
    Ret (mk addr tei bridged tx rx, (15, None)).

End HomeplugStationStatus.

Module HomeplugNetworkInfo.

Record t : Set := mk {
  Networks : list HomeplugNetworkStatus.t;
  Stations : list HomeplugStationStatus.t
}.

(** [var n HomeplugNetworkInfo] *)
Definition zero : t := mk [] [].

(** The loop [for i := 0; i < num_networks; i++], with [iters] the
    iterations still to run; it stops early on [return err]. *)
Fixpoint networks_loop (iters : nat) (n : t) (b : list byte) (o : nat)
  : exec (t * nat * option error) :=
  match iters with
  | O => Ret (n, o, None)
  | S iters' =>
      tl <- slice_from b o ;;
      '(ns, (size, err)) <-
        HomeplugNetworkStatus.UnmarshalBinary HomeplugNetworkStatus.zero tl ;;
      match err with
      | Some e => Ret (n, o, Some e)
      | None =>
          networks_loop iters' (mk (Networks n ++ [ns]) (Stations n)) b (o + size)
      end
  end.

(** The loop [for i := 0; i < num_stations; i++]. *)
Fixpoint stations_loop (iters : nat) (n : t) (b : list byte) (o : nat)
  : exec (t * nat * option error) :=
  match iters with
  | O => Ret (n, o, None)
  | S iters' =>
      tl <- slice_from b o ;;
      '(ss, (size, err)) <-
        HomeplugStationStatus.UnmarshalBinary HomeplugStationStatus.zero tl ;;
      match err with
      | Some e => Ret (n, o, Some e)
      | None =>
          stations_loop iters' (mk (Networks n) (Stations n ++ [ss])) b (o + size)
      end
  end.

(** [n.UnmarshalBinary(b)]: the new [n] and the returned error. *)
Definition UnmarshalBinary (n : t) (b : list byte) : exec (t * option error) :=
  let o := 0 in
  x <- index b o ;;
  let num_networks := int x in
  let o := o + 1 in
  '(n, o, err) <- networks_loop num_networks n b o ;;
  match err with
  | Some e => Ret (n, Some e)
  | None =>
      x <- index b o ;;
      let num_stations := int x in
      let o := o + 1 in
      '(n, o, err) <- stations_loop num_stations n b o ;;
      match err with
      | Some e => Ret (n, Some e)
      | None => Ret (n, None)
      end
  end.

End HomeplugNetworkInfo.

(** ** [Exporter.collect]: the rate gauges *)

Module Exporter.

(** [uint64] arithmetic wraps around. *)
Definition uint64 (z : Z) : Z := z mod 2 ^ 64.

(** [uint64(code) * 1024 * 1024 / 8], the argument of [float64(...)];
    the last theorem on it shows the value is below [2 ^ 53], so the
    conversion to [float64] keeps it. *)
Definition rate_bytes (code : byte) : Z :=
  uint64 (uint64 (uint64 (Z.of_N (Byte.to_N code)) * 1024) * 1024) / 8.


End Exporter.

(** ** LinkTransport and DiscoveryCollector *)

(** [github.com/mdlayher/ethernet]: the fields of [ethernet.Frame] that
    the program sets and reads. *)
Module ethernet.
Record Frame : Set := mk {
  Destination : HardwareAddr;
  Source      : HardwareAddr;
  EtherType   : Z;
  Payload     : list byte
}.
End ethernet.

(** What one call of [conn.ReadFrom(b)] gives: [n] bytes, here the
    contents of [b[:n]], or an error. *)
Inductive read_result : Set :=
| ReadOk (data : list byte)
| ReadErr (e : error).

Inductive loop_ctl : Set := Continue | Break.

(** [time.Second], in nanoseconds. *)
Definition Second : Z := 1000000000.

(** [h.MMEType == nwInfoCnf], the comparison of two [[2]byte] arrays. *)
Definition array2_eqb (a b : byte * byte) : bool :=
  Byte.eqb (fst a) (fst b) && Byte.eqb (snd a) (snd b).

Definition sent (o : option HomeplugFrame.t) : list HomeplugFrame.t :=
  match o with
  | Some h => [h]
  | None => []
  end.

Section Transport.

(** The two methods of the Ethernet library and the socket write are
    outside the repository. *)
Variable ethernet_UnmarshalBinary : list byte -> ethernet.Frame * option error.
Variable ethernet_MarshalBinary : ethernet.Frame -> list byte * option error.
Variable conn_WriteTo : list byte -> HardwareAddr -> option error.

(** When a frame and the timer are ready at the same instant, [select]
    takes either case; [select_tie deadline = true] takes the frame. *)
Variable select_tie : Z -> bool.

(** One iteration of the [for] loop of [read_homeplug] on the outcome
    of its [conn.ReadFrom]: how the loop goes on and the frame sent on
    [ch], if any. *)
Definition read_homeplug_body (r : read_result)
  : exec (loop_ctl * option HomeplugFrame.t) :=
  match r with
  | ReadErr _ => Ret (Break, None)
  | ReadOk data =>
      let '(f, err) := ethernet_UnmarshalBinary data in
      match err with
      | Some _ => Ret (Continue, None)
      | None =>
          '(h, err) <-
            HomeplugFrame.UnmarshalBinary HomeplugFrame.zero (ethernet.Payload f) ;;
          match err with
          | Some _ => Ret (Continue, None)
          | None => Ret (Continue, Some h)
          end
      end
  end.

(** [read_homeplug] on the successive outcomes of [conn.ReadFrom]: the
    frames sent on [ch], in order. The loop has no exit of its own; on
    a finite script the run is observed up to the last read. *)
Fixpoint read_homeplug (reads : list read_result) : exec (list HomeplugFrame.t) :=
  match reads with
  | [] => Ret []
  | r :: reads' =>
      '(c, o) <- read_homeplug_body r ;;
      match c with
      | Break => Ret (sent o)
      | Continue =>
          rest <- read_homeplug reads' ;;
          Ret (sent o ++ rest)
      end
  end.

Definition write_homeplug (iface_addr dest : HardwareAddr) : exec (option error) :=
  let h := HomeplugFrame.mk hpVersion nwInfoReq hpVendor [] in
  '(b, err) <- HomeplugFrame.MarshalBinary h ;;
  match err with
  | Some e => Ret (Some (Errorf "failed to marshal homeplug frame" e))
  | None =>
      let f := ethernet.mk dest iface_addr etherType b in
      let '(b, err) := ethernet_MarshalBinary f in
      match err with
      | Some e => Ret (Some (Errorf "failed to marshal ethernet frame" e))
      | None =>
          match conn_WriteTo b dest with
          | Some e => Ret (Some (Errorf "failed to send message" e))
          | None => Ret None
          end
      end
  end.

(** The body of [case h := <-ch]: the new [ni]. *)
Definition on_frame (ni : list HomeplugNetworkInfo.t) (h : HomeplugFrame.t)
  : exec (list HomeplugNetworkInfo.t) :=
  if array2_eqb (HomeplugFrame.MMEType h) nwInfoCnf then
    '(n, err) <-
      HomeplugNetworkInfo.UnmarshalBinary HomeplugNetworkInfo.zero
        (HomeplugFrame.Payload h) ;;
    match err with
    | Some _ => Ret ni
    | None => Ret (ni ++ [n])
    end
  else Ret ni.

(** The loop [ChanLoop]. [ch] lists the frames that the receive task
    sends, each with the instant (in nanoseconds) from which it can be
    received; [now] is the instant at which the [select] is entered.
    Every iteration makes a new timer, [time.After(time.Second)]. A
    frame that is ready before the timer is received; with nothing
    ready the timer's case runs at [now + Second]. The body of a case
    is taken to run in no time. The result is the instant at which the
    loop is left and [ni]. *)
Fixpoint ChanLoop (now : Z) (ch : list (Z * HomeplugFrame.t))
  (ni : list HomeplugNetworkInfo.t) : exec (Z * list HomeplugNetworkInfo.t) :=
  match ch with
  | [] => Ret ((now + Second)%Z, ni)
  | (t, h) :: ch' =>
      let deadline := (now + Second)%Z in
      if (t <? deadline)%Z || ((t =? deadline)%Z && select_tie deadline) then
        ni <- on_frame ni h ;;
        ChanLoop (Z.max now t) ch' ni
      else Ret (deadline, ni)
  end.

(** [get_homeplug_netinfo]; [now] is the instant at which
    [write_homeplug] returns. The result is the instant of the return
    and the two returned values ([nil] is [[]]). *)
Definition get_homeplug_netinfo (iface_addr dest : HardwareAddr)
  (now : Z) (ch : list (Z * HomeplugFrame.t))
  : exec (Z * (list HomeplugNetworkInfo.t * option error)) :=
  let ni := [] in
  err <- write_homeplug iface_addr dest ;;
  match err with
  | Some e => Ret (now, ([], Some (Errorf "write_homeplug failed" e)))
  | None =>
      '(t, ni) <- ChanLoop now ch ni ;;
      Ret (t, (ni, None))
  end.

End Transport.

(** ** Runs of the collection loop

    The words in which the theorems on [ChanLoop] are stated. *)

Module Cycle.

(** The instant at which the last frame of [ch] is received, when all
    of [ch] is received by a loop entered at [now]: a frame that was
    ready before the loop came back to the [select] is received at
    once. *)
Fixpoint last_received (now : Z) (ch : list (Z * HomeplugFrame.t)) : Z :=
  match ch with
  | [] => now
  | (t, _) :: ch' => last_received (Z.max now t) ch'
  end.

(** Every frame of [ch] is ready less than a second after the loop
    entered the [select] in which it is received. *)
Fixpoint under_a_second (now : Z) (ch : list (Z * HomeplugFrame.t)) : Prop :=
  match ch with
  | [] => True
  | (t, _) :: ch' => (t < now + Second)%Z /\ under_a_second (Z.max now t) ch'
  end.

(** No frame of [ch] is ready within a second of [now]. *)
Definition quiet_after (now : Z) (ch : list (Z * HomeplugFrame.t)) : Prop :=
  match ch with
  | [] => True
  | (t, _) :: _ => (now + Second < t)%Z
  end.

(** What a frame adds to the result: the decoded payload of a confirm
    frame that parses, nothing for any other frame. *)
Definition records (h : HomeplugFrame.t) : list HomeplugNetworkInfo.t :=
  if array2_eqb (HomeplugFrame.MMEType h) nwInfoCnf then
    match HomeplugNetworkInfo.UnmarshalBinary HomeplugNetworkInfo.zero
            (HomeplugFrame.Payload h) with
    | Ret (n, None) => [n]
    | _ => []
    end
  else [].

(** The parser returns on the payload of [h] if [h] is a confirm frame. *)
Definition parser_returns (h : HomeplugFrame.t) : Prop :=
  array2_eqb (HomeplugFrame.MMEType h) nwInfoCnf = true ->
  exists r : HomeplugNetworkInfo.t * option error,
    HomeplugNetworkInfo.UnmarshalBinary HomeplugNetworkInfo.zero
      (HomeplugFrame.Payload h) = Ret r.

End Cycle.

(** An instance of the library's decoder to run the receive loop on
    concrete reads: it reads an Ethernet II frame without a VLAN tag, a
    14-byte header followed by the payload. *)
Definition ethernet_untagged (b : list byte) : ethernet.Frame * option error :=
  if length b <? 14 then (ethernet.mk [] [] 0 [], Some ErrUnexpectedEOF)
  else
    (ethernet.mk (firstn 6 b) (firstn 6 (skipn 6 b))
       (Z.of_N (Byte.to_N (nth 12 b x00)) * 256 + Z.of_N (Byte.to_N (nth 13 b x00)))
       (skipn 14 b), None).

(** ** The wire layout of a network-info confirm

    The layout as the specification words it: one count byte, that many
    17-byte network records, one count byte, that many 15-byte station
    records. The theorems compare the parser with it. *)

Module Wire.

(** The fields of a 17-byte network record. *)
Definition network (r : list byte) : HomeplugNetworkStatus.t :=
  HomeplugNetworkStatus.mk (firstn 7 r) (nth 7 r x00) (nth 8 r x00)
    (nth 9 r x00) (firstn 6 (skipn 10 r)) (nth 16 r x00).

(** The fields of a 15-byte station record. *)
Definition station (r : list byte) : HomeplugStationStatus.t :=
  HomeplugStationStatus.mk (firstn 6 r) (nth 6 r x00) (firstn 6 (skipn 7 r))
    (nth 13 r x00) (nth 14 r x00).

(** The first [k] records of [size] bytes each. *)
Fixpoint chunks (size k : nat) (l : list byte) : list (list byte) :=
  match k with
  | O => []
  | S k' => firstn size l :: chunks size k' (skipn size l)
  end.

Definition num_networks (b : list byte) : nat := int (nth 0 b x00).

(** The offset of the station count byte. *)
Definition stations_at (b : list byte) : nat := 1 + 17 * num_networks b.

Definition num_stations (b : list byte) : nat := int (nth (stations_at b) b x00).

(** The number of bytes that the two counts declare. *)
Definition declared_length (b : list byte) : nat :=
  stations_at b + 1 + 15 * num_stations b.

Definition networks (b : list byte) : list HomeplugNetworkStatus.t :=
  map network (chunks 17 (num_networks b) (skipn 1 b)).

Definition stations (b : list byte) : list HomeplugStationStatus.t :=
  map station (chunks 15 (num_stations b) (skipn (stations_at b + 1) b)).

End Wire.

(** [m] appended to [n], field by field. *)
Definition info_append (n m : HomeplugNetworkInfo.t) : HomeplugNetworkInfo.t :=
  HomeplugNetworkInfo.mk
    (HomeplugNetworkInfo.Networks n ++ HomeplugNetworkInfo.Networks m)
    (HomeplugNetworkInfo.Stations n ++ HomeplugNetworkInfo.Stations m).

(** ** Runs of the receive loop *)

Module Receive.

(** The data of the reads that the loop makes: those before the first
    failed read. *)
Fixpoint before_error (reads : list read_result) : list (list byte) :=
  match reads with
  | ReadOk data :: reads' => data :: before_error reads'
  | _ => []
  end.

(** The frame that the bytes of one read put on the channel: none when
    the Ethernet decoder rejects them or when the Ethernet payload is
    shorter than the 6-byte header. *)
Definition frames_of (eth : list byte -> ethernet.Frame * option error)
  (data : list byte) : list HomeplugFrame.t :=
  match eth data with
  | (_, Some _) => []
  | (f, None) =>
      let p := ethernet.Payload f in
      if length p <? 6 then []
      else [HomeplugFrame.mk (nth 0 p x00) (nth 2 p x00, nth 1 p x00)
              (nth 3 p x00, nth 4 p x00, nth 5 p x00) (skipn 6 p)]
  end.

End Receive.

(** ** [Exporter.collect] and [Exporter.Collect]: the metrics of a scrape *)

(** [net.Interface] *)
Module net.
Record Interface : Set := mkInterface {
  Index        : Z;
  MTU          : Z;
  Name         : string;
  HardwareAddr : list byte;
  Flags        : Z
}.
End net.

(** [github.com/prometheus/client_golang/prometheus]: a descriptor as
    [NewDesc] is given it, and a constant metric as
    [MustNewConstMetric] is given it. The [float64] value is kept as the
    integer it is converted from: a byte, or a rate below [2 ^ 53]. *)
Module prometheus.
Record Desc : Set := mkDesc {
  fqName         : string;
  help           : string;
  variableLabels : list string
}.
Inductive ValueType : Set := CounterValue | GaugeValue | UntypedValue.
Record Metric : Set := mkMetric {
  desc        : Desc;
  valueType   : ValueType;
  value       : Z;
  labelValues : list string
}.
End prometheus.

Definition namespace : string := "homeplug".

Record Exporter_t : Set := mkExporter {
  iface   : net.Interface;
  dest    : HardwareAddr;
  txRate  : prometheus.Desc;
  rxRate  : prometheus.Desc;
  network : prometheus.Desc
}.

Section Scrape.

(** Library functions: [prometheus.BuildFQName], [hex.EncodeToString],
    [strconv.FormatInt(x, 10)] and [net.HardwareAddr.String]. *)
Variable BuildFQName : string -> string -> string -> string.
Variable hex_EncodeToString : list byte -> string.
Variable FormatInt : Z -> string.
Variable HardwareAddr_String : list byte -> string.

Variable ethernet_MarshalBinary : ethernet.Frame -> list byte * option error.
Variable conn_WriteTo : list byte -> HardwareAddr -> option error.
Variable select_tie : Z -> bool.

Definition NewExporter (iface : net.Interface) (dest : HardwareAddr) : Exporter_t :=
  mkExporter iface dest
    (prometheus.mkDesc (BuildFQName namespace "station" "tx_rate_bytes")
       "Average PHY Tx data rate"
       ["mac_address"; "terminal_equipment_identifier"]%string)
    (prometheus.mkDesc (BuildFQName namespace "station" "rx_rate_bytes")
       "Average PHY Rx data rate"
       ["mac_address"; "terminal_equipment_identifier"]%string)
    (prometheus.mkDesc (BuildFQName namespace "network" "id")
       "Logical network information"
       ["network_identifier"; "terminal_equipment_identifier";
        "coordinator_mac_address"]%string).

(** [Describe]: the descriptors sent on the channel. *)
Definition Describe (e : Exporter_t) : list prometheus.Desc :=
  [txRate e; rxRate e; network e].

(** The metric sent for one network of [info.Networks]. *)
Definition network_metric (e : Exporter_t) (nw : HomeplugNetworkStatus.t)
  : prometheus.Metric :=
  prometheus.mkMetric (network e) prometheus.GaugeValue
    (Z.of_N (Byte.to_N (HomeplugNetworkStatus.ShortID nw)))
    [hex_EncodeToString (HomeplugNetworkStatus.NetworkID nw);
     FormatInt (Z.of_N (Byte.to_N (HomeplugNetworkStatus.TEI nw)));
     HardwareAddr_String (HomeplugNetworkStatus.CCoAddress nw)].

(** The two metrics sent for one station of [info.Stations]. *)
Definition station_metrics (e : Exporter_t) (station : HomeplugStationStatus.t)
  : list prometheus.Metric :=
  [prometheus.mkMetric (txRate e) prometheus.GaugeValue
     (Exporter.rate_bytes (HomeplugStationStatus.TxRate station))
     [HardwareAddr_String (HomeplugStationStatus.Address station);
      FormatInt (Z.of_N (Byte.to_N (HomeplugStationStatus.TEI station)))];
   prometheus.mkMetric (rxRate e) prometheus.GaugeValue
     (Exporter.rate_bytes (HomeplugStationStatus.RxRate station))
     [HardwareAddr_String (HomeplugStationStatus.Address station);
      FormatInt (Z.of_N (Byte.to_N (HomeplugStationStatus.TEI station)))]].

(** The body of [for _, info := range netinfos]. *)
Definition info_metrics (e : Exporter_t) (info : HomeplugNetworkInfo.t)
  : list prometheus.Metric :=
  map (network_metric e) (HomeplugNetworkInfo.Networks info)
    ++ flat_map (station_metrics e) (HomeplugNetworkInfo.Stations info).

(** [e.collect(ch)]: the instant of the return, the metrics sent on
    [ch], in order, and the returned error. The arguments [now] and
    [frames] are those of [get_homeplug_netinfo]. *)
Definition Exporter_collect (e : Exporter_t) (now : Z)
  (frames : list (Z * HomeplugFrame.t))
  : exec (Z * (list prometheus.Metric * option error)) :=
  '(t, (netinfos, err)) <-
    get_homeplug_netinfo ethernet_MarshalBinary conn_WriteTo select_tie
      (net.HardwareAddr (iface e)) (dest e) now frames ;;
  match err with
  | Some err => Ret (t, ([], Some err))
  | None => Ret (t, (flat_map (info_metrics e) netinfos, None))
  end.

(** [e.Collect(ch)], without its lock: the error is logged and dropped. *)
Definition Exporter_Collect (e : Exporter_t) (now : Z)
  (frames : list (Z * HomeplugFrame.t)) : exec (Z * list prometheus.Metric) :=
  '(t, (metrics, _)) <- Exporter_collect e now frames ;;
  Ret (t, metrics).

End Scrape.

(** ** [get_interface_or_default] *)

Inductive iface_error : Set :=
| LibError (e : error)      (* the error of the library call *)
| InvalidInterface.         (* &net.OpError{Op: "route", Net: "ip+net",
                               Err: errors.New("invalid network interface")} *)

Section Interfaces.

(** The results of [net.Interfaces()] and of [net.InterfaceByName], the
    value of the flag [--interface] and the two flag bits of the
    library. *)
Variable net_Interfaces : list net.Interface * option error.
Variable net_InterfaceByName : string -> option net.Interface * option error.
Variable interfaceName : string.
Variable FlagUp FlagLoopback : Z.

(** The loop [for _, iface := range ifaces]: the interface of its
    [return], if it reaches it. *)
Fixpoint first_usable (ifaces : list net.Interface) : option net.Interface :=
  match ifaces with
  | [] => None
  | iface :: ifaces' =>
      if (Z.land (net.Flags iface) FlagUp =? 0)%Z then first_usable ifaces'
      else if negb (Z.land (net.Flags iface) FlagLoopback =? 0)%Z
           then first_usable ifaces'
           else Some iface
  end.

(** The function reads the flag, not its argument [name]. *)
Definition get_interface_or_default (name : string)
  : option net.Interface * option iface_error :=
  if String.eqb interfaceName "" then
    let '(ifaces, err) := net_Interfaces in
    match err with
    | Some err => (None, Some (LibError err))
    | None =>
        match first_usable ifaces with
        | Some iface => (Some iface, None)
        | None => (None, Some InvalidInterface)
        end
    end
  else
    let '(iface, err) := net_InterfaceByName interfaceName in
    match err with
    | Some err => (None, Some (LibError err))
    | None => (iface, None)
    end.

End Interfaces.

(** ** [macaddress.go]: the flag value [macAddressValue] *)

Inductive set_error : Set :=
| ParseError (e : error)    (* the error of net.ParseMAC *)
| InvalidAddressLength.     (* errors.New("Invalid address length") *)

(** [err == nil] *)
Definition is_nil (err : option error) : bool :=
  match err with
  | None => true
  | Some _ => false
  end.

Section MacAddress.

(** [net.ParseMAC] *)
Variable net_ParseMAC : string -> list byte * option error.

(** [f.Set(s)]: the new value of [*f.v] and the returned error. *)
Definition macAddressValue_Set (v0 : HardwareAddr) (s : string)
  : HardwareAddr * option set_error :=
  let s := if String.eqb s "broadcast" || String.eqb s "all"
           then "ff:ff:ff:ff:ff:ff"%string else s in
  let s := if String.eqb s "local" then "00:b0:52:00:00:01"%string else s in
  let '(v, err) := net_ParseMAC s in
  if is_nil err && negb (length v =? 6) then (v0, Some InvalidAddressLength)
  else
    let v1 := if is_nil err then v else v0 in
    (v1, option_map ParseError err).

(** [f.Get()] *)
Definition macAddressValue_Get (v0 : HardwareAddr) : HardwareAddr := v0.

End MacAddress.

(** ** Properties of the frame codec *)

Lemma copy_fresh (src : list byte) :
  copy (make (length src)) src = src.
Proof.
  unfold copy, make.
  rewrite skipn_all2 by (rewrite repeat_length; lia).
  rewrite repeat_length, firstn_all.
  apply app_nil_r.
Qed.

Lemma MarshalBinary_bytes (h : HomeplugFrame.t) :
  HomeplugFrame.MarshalBinary h =
  Ret (HomeplugFrame.Version h
         :: snd (HomeplugFrame.MMEType h) :: fst (HomeplugFrame.MMEType h)
         :: fst (fst (HomeplugFrame.Vendor h)) :: snd (fst (HomeplugFrame.Vendor h))
         :: snd (HomeplugFrame.Vendor h)
         :: HomeplugFrame.Payload h, None).
Proof.
  destruct h as [v [m0 m1] [[v0 v1] v2] p].
  unfold HomeplugFrame.MarshalBinary, HomeplugFrame.read, HomeplugFrame.length.
  cbn [HomeplugFrame.Version HomeplugFrame.MMEType HomeplugFrame.Vendor
       HomeplugFrame.Payload fst snd].
  change (make (6 + length p))
    with (x00 :: x00 :: x00 :: x00 :: x00 :: x00 :: make (length p)).
  cbn [set_index update List.length Nat.ltb Nat.leb bind copy_at slice_from
       skipn firstn app].
  now rewrite copy_fresh.
Qed.

Lemma UnmarshalBinary_bytes (h0 : HomeplugFrame.t) (v m1 m0 v0 v1 v2 : byte)
  (p : list byte) :
  HomeplugFrame.UnmarshalBinary h0 (v :: m1 :: m0 :: v0 :: v1 :: v2 :: p) =
  Ret (HomeplugFrame.mk v (m0, m1) (v0, v1, v2) p, None).
Proof.
  unfold HomeplugFrame.UnmarshalBinary.
  cbn [length Nat.ltb Nat.leb slice_from skipn bind index nth_error Nat.sub].
  rewrite Nat.sub_0_r, copy_fresh.
  reflexivity.
Qed.

(** C3. Round trip of the frame codec: marshalling any frame [h] gives
    bytes [b] without an error, and unmarshalling [b] into any receiver
    gives [h] back, without an error. *)
Theorem frame_roundtrip (h h0 : HomeplugFrame.t) :
  exists b : list byte,
    HomeplugFrame.MarshalBinary h = Ret (b, None) /\
    HomeplugFrame.UnmarshalBinary h0 b = Ret (h, None).
Proof.
  eexists. split.
  - apply MarshalBinary_bytes.
  - rewrite UnmarshalBinary_bytes.
    now destruct h as [v [m0 m1] [[v0 v1] v2] p].
Qed.

(** C4. Marshalling never fails and lays the frame out as: version,
    second byte of the message type, first byte of the message type, the
    three vendor bytes, the payload; that is [6 + len(payload)] bytes.
    The request type [{0xA0, 0x38}] goes on the wire as [0x38, 0xA0],
    and unmarshalling these wire bytes gives [{0xA0, 0x38}]. *)
Theorem frame_encode_layout (h : HomeplugFrame.t) :
  (exists b : list byte,
     HomeplugFrame.MarshalBinary h = Ret (b, None) /\
     length b = 6 + length (HomeplugFrame.Payload h) /\
     nth_error b 0 = Some (HomeplugFrame.Version h) /\
     nth_error b 1 = Some (snd (HomeplugFrame.MMEType h)) /\
     nth_error b 2 = Some (fst (HomeplugFrame.MMEType h)) /\
     nth_error b 3 = Some (fst (fst (HomeplugFrame.Vendor h))) /\
     nth_error b 4 = Some (snd (fst (HomeplugFrame.Vendor h))) /\
     nth_error b 5 = Some (snd (HomeplugFrame.Vendor h)) /\
     skipn 6 b = HomeplugFrame.Payload h) /\
  (forall (v : byte) (vendor : byte * byte * byte) (p : list byte),
     exists rest : list byte,
       HomeplugFrame.MarshalBinary (HomeplugFrame.mk v nwInfoReq vendor p) =
         Ret (v :: x38 :: xa0 :: rest, None)) /\
  (forall (h0 : HomeplugFrame.t) (v v0 v1 v2 : byte) (p : list byte),
     exists h' : HomeplugFrame.t,
       HomeplugFrame.UnmarshalBinary h0 (v :: x38 :: xa0 :: v0 :: v1 :: v2 :: p) =
         Ret (h', None) /\
       HomeplugFrame.MMEType h' = (xa0, x38)).
Proof.
  split; [|split].
  - eexists. split; [apply MarshalBinary_bytes|].
    cbn [length nth_error skipn]. repeat split; reflexivity.
  - intros v vendor p. eexists. rewrite MarshalBinary_bytes. reflexivity.
  - intros h0 v v0 v1 v2 p. eexists. rewrite UnmarshalBinary_bytes.
    split; reflexivity.
Qed.

Lemma UnmarshalBinary_short (h : HomeplugFrame.t) (b : list byte) :
  length b < 6 ->
  HomeplugFrame.UnmarshalBinary h b = Ret (h, Some ErrUnexpectedEOF).
Proof.
  intros Hlen. unfold HomeplugFrame.UnmarshalBinary.
  apply Nat.ltb_lt in Hlen. now rewrite Hlen.
Qed.

Lemma UnmarshalBinary_long (h : HomeplugFrame.t) (b : list byte) :
  6 <= length b ->
  HomeplugFrame.UnmarshalBinary h b =
  Ret (HomeplugFrame.mk (nth 0 b x00) (nth 2 b x00, nth 1 b x00)
         (nth 3 b x00, nth 4 b x00, nth 5 b x00) (skipn 6 b), None).
Proof.
  intros Hlen.
  do 6 (destruct b as [|? b]; [simpl in Hlen; lia|]).
  apply UnmarshalBinary_bytes.
Qed.

(** C5. Unmarshalling a frame from fewer than 6 bytes returns
    [io.ErrUnexpectedEOF] and leaves the receiver as it was; from 6
    bytes or more it returns no error, and the frame holds the header
    fields and the remaining bytes as payload. *)
Theorem frame_decode_length (h : HomeplugFrame.t) (b : list byte) :
  (length b < 6 ->
   HomeplugFrame.UnmarshalBinary h b = Ret (h, Some ErrUnexpectedEOF)) /\
  (6 <= length b ->
   HomeplugFrame.UnmarshalBinary h b =
   Ret (HomeplugFrame.mk (nth 0 b x00) (nth 2 b x00, nth 1 b x00)
          (nth 3 b x00, nth 4 b x00, nth 5 b x00) (skipn 6 b), None)).
Proof.
  split; [apply UnmarshalBinary_short | apply UnmarshalBinary_long].
Qed.

Lemma frame_decode_length_witness :
  HomeplugFrame.UnmarshalBinary HomeplugFrame.zero [x00; x39; xa0; x00; xb0] =
    Ret (HomeplugFrame.zero, Some ErrUnexpectedEOF) /\
  HomeplugFrame.UnmarshalBinary HomeplugFrame.zero
    [x00; x39; xa0; x00; xb0; x52; x01] =
    Ret (HomeplugFrame.mk x00 (xa0, x39) (x00, xb0, x52) [x01], None).
Proof.
  split.
  - apply (proj1 (frame_decode_length HomeplugFrame.zero
                    [x00; x39; xa0; x00; xb0])).
    simpl. lia.
  - apply (proj2 (frame_decode_length HomeplugFrame.zero
                    [x00; x39; xa0; x00; xb0; x52; x01])).
    simpl. lia.
Defined.

(** ** The rate conversion *)

Lemma byte_range (x : byte) : (0 <= Z.of_N (Byte.to_N x) <= 255)%Z.
Proof.
  pose proof (Byte.to_N_bounded x) as H. lia.
Qed.


(** ** The network-info parser *)

Lemma NetworkStatus_short (s : HomeplugNetworkStatus.t) (b : list byte) :
  length b < 17 ->
  HomeplugNetworkStatus.UnmarshalBinary s b = Ret (s, (0, Some ErrUnexpectedEOF)).
Proof.
  intros H. unfold HomeplugNetworkStatus.UnmarshalBinary.
  apply Nat.ltb_lt in H. now rewrite H.
Qed.

Lemma NetworkStatus_ok (b : list byte) :
  17 <= length b ->
  HomeplugNetworkStatus.UnmarshalBinary HomeplugNetworkStatus.zero b =
  Ret (Wire.network (firstn 17 b), (17, None)).
Proof.
  intros H.
  do 17 (destruct b as [|? b]; [simpl in H; lia|]).
  reflexivity.
Qed.

Lemma StationStatus_short (s : HomeplugStationStatus.t) (b : list byte) :
  length b < 15 ->
  HomeplugStationStatus.UnmarshalBinary s b = Ret (s, (0, Some ErrUnexpectedEOF)).
Proof.
  intros H. unfold HomeplugStationStatus.UnmarshalBinary.
  apply Nat.ltb_lt in H. now rewrite H.
Qed.

Lemma StationStatus_ok (b : list byte) :
  15 <= length b ->
  HomeplugStationStatus.UnmarshalBinary HomeplugStationStatus.zero b =
  Ret (Wire.station (firstn 15 b), (15, None)).
Proof.
  intros H.
  do 15 (destruct b as [|? b]; [simpl in H; lia|]).
  reflexivity.
Qed.

Lemma slice_from_ok (b : list byte) (o : nat) :
  o <= length b -> slice_from b o = Ret (skipn o b).
Proof.
  intros H. unfold slice_from. apply Nat.leb_le in H. now rewrite H.
Qed.

Lemma index_ok (b : list byte) (i : nat) :
  i < length b -> index b i = Ret (nth i b x00).
Proof.
  intros H. unfold index.
  now rewrite (nth_error_nth' b x00 H).
Qed.

Lemma index_out (b : list byte) (i : nat) :
  length b <= i -> index b i = Panic IndexOutOfRange.
Proof.
  intros H. unfold index.
  apply nth_error_None in H. now rewrite H.
Qed.

Lemma networks_loop_ok (k : nat) : forall (n : HomeplugNetworkInfo.t)
  (b : list byte) (o : nat),
  o + 17 * k <= length b ->
  HomeplugNetworkInfo.networks_loop k n b o =
  Ret (HomeplugNetworkInfo.mk
         (HomeplugNetworkInfo.Networks n
            ++ map Wire.network (Wire.chunks 17 k (skipn o b)))
         (HomeplugNetworkInfo.Stations n),
       o + 17 * k, None).
Proof.
  induction k as [|k IH]; intros n b o H.
  - cbn [HomeplugNetworkInfo.networks_loop Wire.chunks map].
    rewrite app_nil_r, Nat.mul_0_r, Nat.add_0_r. now destruct n.
  - cbn [HomeplugNetworkInfo.networks_loop].
    rewrite slice_from_ok by lia. cbn [bind].
    rewrite NetworkStatus_ok by (rewrite length_skipn; lia).
    cbn [bind]. rewrite IH by lia.
    cbn [HomeplugNetworkInfo.Networks HomeplugNetworkInfo.Stations
         Wire.chunks map].
    rewrite skipn_skipn, <- app_assoc. cbn [app].
    replace (o + 17 + 17 * k) with (o + 17 * S k) by lia.
    now replace (17 + o) with (o + 17) by lia.
Qed.

Lemma networks_loop_short (k : nat) : forall (n : HomeplugNetworkInfo.t)
  (b : list byte) (o : nat),
  o <= length b -> length b < o + 17 * k ->
  exists (n' : HomeplugNetworkInfo.t) (o' : nat),
    HomeplugNetworkInfo.networks_loop k n b o = Ret (n', o', Some ErrUnexpectedEOF).
Proof.
  induction k as [|k IH]; intros n b o Ho H; [lia|].
  cbn [HomeplugNetworkInfo.networks_loop].
  rewrite slice_from_ok by lia. cbn [bind].
  destruct (Nat.lt_ge_cases (length (skipn o b)) 17) as [Hs|Hs].
  - rewrite NetworkStatus_short by assumption. cbn [bind]. eauto.
  - rewrite NetworkStatus_ok by assumption. cbn [bind].
    rewrite length_skipn in Hs. apply IH; lia.
Qed.

Lemma stations_loop_ok (k : nat) : forall (n : HomeplugNetworkInfo.t)
  (b : list byte) (o : nat),
  o + 15 * k <= length b ->
  HomeplugNetworkInfo.stations_loop k n b o =
  Ret (HomeplugNetworkInfo.mk
         (HomeplugNetworkInfo.Networks n)
         (HomeplugNetworkInfo.Stations n
            ++ map Wire.station (Wire.chunks 15 k (skipn o b))),
       o + 15 * k, None).
Proof.
  induction k as [|k IH]; intros n b o H.
  - cbn [HomeplugNetworkInfo.stations_loop Wire.chunks map].
    rewrite app_nil_r, Nat.mul_0_r, Nat.add_0_r. now destruct n.
  - cbn [HomeplugNetworkInfo.stations_loop].
    rewrite slice_from_ok by lia. cbn [bind].
    rewrite StationStatus_ok by (rewrite length_skipn; lia).
    cbn [bind]. rewrite IH by lia.
    cbn [HomeplugNetworkInfo.Networks HomeplugNetworkInfo.Stations
         Wire.chunks map].
    rewrite skipn_skipn, <- app_assoc. cbn [app].
    replace (o + 15 + 15 * k) with (o + 15 * S k) by lia.
    now replace (15 + o) with (o + 15) by lia.
Qed.

Lemma stations_loop_short (k : nat) : forall (n : HomeplugNetworkInfo.t)
  (b : list byte) (o : nat),
  o <= length b -> length b < o + 15 * k ->
  exists (n' : HomeplugNetworkInfo.t) (o' : nat),
    HomeplugNetworkInfo.stations_loop k n b o = Ret (n', o', Some ErrUnexpectedEOF).
Proof.
  induction k as [|k IH]; intros n b o Ho H; [lia|].
  cbn [HomeplugNetworkInfo.stations_loop].
  rewrite slice_from_ok by lia. cbn [bind].
  destruct (Nat.lt_ge_cases (length (skipn o b)) 15) as [Hs|Hs].
  - rewrite StationStatus_short by assumption. cbn [bind]. eauto.
  - rewrite StationStatus_ok by assumption. cbn [bind].
    rewrite length_skipn in Hs. apply IH; lia.
Qed.

Lemma stations_at_pos (b : list byte) : 1 <= Wire.stations_at b.
Proof. unfold Wire.stations_at. lia. Qed.

Lemma netinfo_empty (n : HomeplugNetworkInfo.t) :
  HomeplugNetworkInfo.UnmarshalBinary n [] = Panic IndexOutOfRange.
Proof. reflexivity. Qed.

Lemma netinfo_networks_short (n : HomeplugNetworkInfo.t) (b : list byte) :
  1 <= length b -> length b < Wire.stations_at b ->
  exists n' : HomeplugNetworkInfo.t,
    HomeplugNetworkInfo.UnmarshalBinary n b = Ret (n', Some ErrUnexpectedEOF).
Proof.
  intros H1 H. unfold HomeplugNetworkInfo.UnmarshalBinary.
  rewrite index_ok by lia. cbn [bind].
  fold (Wire.num_networks b).
  destruct (networks_loop_short (Wire.num_networks b) n b (0 + 1))
    as (n' & o' & E); [lia | exact H |].
  rewrite E. cbn [bind]. eauto.
Qed.

Lemma netinfo_no_station_count (n : HomeplugNetworkInfo.t) (b : list byte) :
  length b = Wire.stations_at b ->
  HomeplugNetworkInfo.UnmarshalBinary n b = Panic IndexOutOfRange.
Proof.
  intros H. pose proof (stations_at_pos b) as Hp.
  unfold HomeplugNetworkInfo.UnmarshalBinary.
  rewrite index_ok by lia. cbn [bind].
  fold (Wire.num_networks b).
  rewrite networks_loop_ok by (unfold Wire.stations_at in H; lia).
  cbn [bind].
  rewrite index_out by (unfold Wire.stations_at in H; lia).
  reflexivity.
Qed.

Lemma netinfo_stations_short (n : HomeplugNetworkInfo.t) (b : list byte) :
  Wire.stations_at b < length b -> length b < Wire.declared_length b ->
  exists n' : HomeplugNetworkInfo.t,
    HomeplugNetworkInfo.UnmarshalBinary n b = Ret (n', Some ErrUnexpectedEOF).
Proof.
  intros Hs H. unfold HomeplugNetworkInfo.UnmarshalBinary.
  rewrite index_ok by lia. cbn [bind].
  fold (Wire.num_networks b).
  rewrite networks_loop_ok by (unfold Wire.stations_at in Hs; lia).
  cbn [bind].
  change (0 + 1 + 17 * Wire.num_networks b) with (Wire.stations_at b).
  rewrite index_ok by lia. cbn [bind].
  fold (Wire.num_stations b).
  match goal with
  | |- context [HomeplugNetworkInfo.stations_loop _ ?m _ _] =>
      destruct (stations_loop_short (Wire.num_stations b) m b
                  (Wire.stations_at b + 1)) as (n' & o' & E)
  end; [lia | exact H |].
  rewrite E. cbn [bind]. eauto.
Qed.

Lemma netinfo_ok (n : HomeplugNetworkInfo.t) (b : list byte) :
  Wire.declared_length b <= length b ->
  HomeplugNetworkInfo.UnmarshalBinary n b =
  Ret (HomeplugNetworkInfo.mk
         (HomeplugNetworkInfo.Networks n ++ Wire.networks b)
         (HomeplugNetworkInfo.Stations n ++ Wire.stations b), None).
Proof.
  intros H. unfold Wire.declared_length in H.
  pose proof (stations_at_pos b) as Hp.
  unfold HomeplugNetworkInfo.UnmarshalBinary.
  rewrite index_ok by lia. cbn [bind].
  fold (Wire.num_networks b).
  rewrite networks_loop_ok by (unfold Wire.stations_at in H; lia).
  cbn [bind].
  change (0 + 1 + 17 * Wire.num_networks b) with (Wire.stations_at b).
  rewrite index_ok by lia. cbn [bind].
  fold (Wire.num_stations b).
  rewrite stations_loop_ok by lia.
  reflexivity.
Qed.

(** Every buffer falls in one of the five cases above. *)
Lemma netinfo_cases (b : list byte) :
  b = [] \/
  (1 <= length b /\ length b < Wire.stations_at b) \/
  length b = Wire.stations_at b \/
  (Wire.stations_at b < length b /\ length b < Wire.declared_length b) \/
  Wire.declared_length b <= length b.
Proof.
  destruct b as [|x b]; [now left|right].
  cbn [length]. lia.
Qed.

(** C1. The parser does not return a truncation error on every short
    buffer: on the empty buffer, and on a buffer that ends right after
    the declared network records (before the station count byte), the
    read [b[o]] panics with an index out of range. On every other buffer
    it returns, with no error or with [io.ErrUnexpectedEOF]. *)
Theorem netinfo_decode_outcomes (n : HomeplugNetworkInfo.t) (b : list byte) :
  (b = [] \/ length b = Wire.stations_at b ->
   HomeplugNetworkInfo.UnmarshalBinary n b = Panic IndexOutOfRange) /\
  (b <> [] -> length b <> Wire.stations_at b ->
   exists n' : HomeplugNetworkInfo.t,
     HomeplugNetworkInfo.UnmarshalBinary n b = Ret (n', None) \/
     HomeplugNetworkInfo.UnmarshalBinary n b = Ret (n', Some ErrUnexpectedEOF)).
Proof.
  split.
  - intros [-> | H]; [apply netinfo_empty | now apply netinfo_no_station_count].
  - intros Hne Hat.
    destruct (netinfo_cases b) as [E | [[H1 H] | [E | [[H1 H] | H]]]];
      try contradiction.
    + destruct (netinfo_networks_short n b H1 H) as [n' E]. eauto.
    + destruct (netinfo_stations_short n b H1 H) as [n' E]. eauto.
    + eexists. left. now apply netinfo_ok.
Qed.

Lemma netinfo_decode_outcomes_witness :
  HomeplugNetworkInfo.UnmarshalBinary HomeplugNetworkInfo.zero [] =
    Panic IndexOutOfRange /\
  HomeplugNetworkInfo.UnmarshalBinary HomeplugNetworkInfo.zero
    (x03 :: repeat x00 51) = Panic IndexOutOfRange /\
  exists n' : HomeplugNetworkInfo.t,
    HomeplugNetworkInfo.UnmarshalBinary HomeplugNetworkInfo.zero [x00; x00] =
      Ret (n', None) \/
    HomeplugNetworkInfo.UnmarshalBinary HomeplugNetworkInfo.zero [x00; x00] =
      Ret (n', Some ErrUnexpectedEOF).
Proof.
  split; [|split].
  - apply (proj1 (netinfo_decode_outcomes HomeplugNetworkInfo.zero [])).
    left. reflexivity.
  - apply (proj1 (netinfo_decode_outcomes HomeplugNetworkInfo.zero
                    (x03 :: repeat x00 51))).
    right. reflexivity.
  - apply (proj2 (netinfo_decode_outcomes HomeplugNetworkInfo.zero [x00; x00])).
    + discriminate.
    + vm_compute. lia.
Defined.

Lemma on_frame_error (ni : list HomeplugNetworkInfo.t) (h : HomeplugFrame.t)
  (n' : HomeplugNetworkInfo.t) (e : error) :
  HomeplugNetworkInfo.UnmarshalBinary HomeplugNetworkInfo.zero
    (HomeplugFrame.Payload h) = Ret (n', Some e) ->
  on_frame ni h = Ret ni.
Proof.
  intros E. unfold on_frame.
  destruct (array2_eqb (HomeplugFrame.MMEType h) nwInfoCnf); [|reflexivity].
  now rewrite E.
Qed.

(** C6. A confirm payload that declares 2 network records and holds 17
    bytes after the count byte makes the parser return
    [io.ErrUnexpectedEOF]; the collector then leaves its list [ni] as it
    was, so the frame adds no network and no station record, and the
    loop goes on with the next frame. *)
Theorem truncated_confirm_dropped (select_tie : Z -> bool) (rec : list byte)
  (Hlen : length rec = 17) :
  (forall n : HomeplugNetworkInfo.t, exists n' : HomeplugNetworkInfo.t,
     HomeplugNetworkInfo.UnmarshalBinary n (x02 :: rec) =
       Ret (n', Some ErrUnexpectedEOF)) /\
  (forall (v : byte) (vendor : byte * byte * byte)
          (ni : list HomeplugNetworkInfo.t),
     let h := HomeplugFrame.mk v nwInfoCnf vendor (x02 :: rec) in
     on_frame ni h = Ret ni /\
     forall (now t : Z) (ch : list (Z * HomeplugFrame.t)),
       (t < now + Second)%Z ->
       ChanLoop select_tie now ((t, h) :: ch) ni =
       ChanLoop select_tie (Z.max now t) ch ni).
Proof.
  assert (Hdec : forall n : HomeplugNetworkInfo.t,
             exists n' : HomeplugNetworkInfo.t,
               HomeplugNetworkInfo.UnmarshalBinary n (x02 :: rec) =
                 Ret (n', Some ErrUnexpectedEOF)).
  { intros n. apply netinfo_networks_short.
    - cbn [length]. lia.
    - cbn [length]. rewrite Hlen. vm_compute. lia. }
  split; [exact Hdec|].
  intros v vendor ni h.
  assert (Hon : forall ni' : list HomeplugNetworkInfo.t, on_frame ni' h = Ret ni').
  { intros ni'. destruct (Hdec HomeplugNetworkInfo.zero) as [n' E].
    now apply (on_frame_error ni' h n' ErrUnexpectedEOF). }
  split; [apply Hon|].
  intros now t ch Ht.
  cbn [ChanLoop]. apply Z.ltb_lt in Ht. rewrite Ht. cbn [orb].
  now rewrite Hon.
Qed.

Lemma truncated_confirm_dropped_witness :
  let h := HomeplugFrame.mk x00 nwInfoCnf hpVendor (x02 :: repeat x01 17) in
  (exists n' : HomeplugNetworkInfo.t,
     HomeplugNetworkInfo.UnmarshalBinary HomeplugNetworkInfo.zero
       (x02 :: repeat x01 17) = Ret (n', Some ErrUnexpectedEOF)) /\
  on_frame [] h = Ret [] /\
  ChanLoop (fun _ => true) 0 [(5%Z, h)] [] = ChanLoop (fun _ => true) 5 [] [].
Proof.
  intros h.
  destruct (truncated_confirm_dropped (fun _ => true) (repeat x01 17) eq_refl)
    as [Hdec Hcol].
  split; [apply Hdec|].
  destruct (Hcol x00 hpVendor []) as [Hon Hloop].
  split; [exact Hon|].
  apply (Hloop 0%Z 5%Z []). reflexivity.
Defined.

Lemma chunks_app (size k : nat) : forall pre tail : list byte,
  size * k <= length pre ->
  Wire.chunks size k (pre ++ tail) = Wire.chunks size k pre.
Proof.
  induction k as [|k IH]; intros pre tail H; [reflexivity|].
  cbn [Wire.chunks].
  rewrite firstn_app, skipn_app.
  replace (size - length pre) with 0 by lia.
  cbn [firstn skipn]. rewrite app_nil_r.
  rewrite IH by (rewrite length_skipn; lia).
  reflexivity.
Qed.

Lemma chunks_skipn_app (size k o : nat) (pre tail : list byte) :
  o + size * k <= length pre ->
  Wire.chunks size k (skipn o (pre ++ tail)) = Wire.chunks size k (skipn o pre).
Proof.
  intros H. rewrite skipn_app.
  replace (o - length pre) with 0 by lia.
  cbn [skipn]. apply chunks_app. rewrite length_skipn. lia.
Qed.

(** What the layout reads from a buffer lies within the declared length. *)
Lemma wire_prefix (pre t1 t2 : list byte) :
  Wire.declared_length (pre ++ t1) <= length pre ->
  Wire.num_networks (pre ++ t2) = Wire.num_networks (pre ++ t1) /\
  Wire.num_stations (pre ++ t2) = Wire.num_stations (pre ++ t1) /\
  Wire.networks (pre ++ t2) = Wire.networks (pre ++ t1) /\
  Wire.stations (pre ++ t2) = Wire.stations (pre ++ t1).
Proof.
  intros H. unfold Wire.declared_length in H.
  pose proof (stations_at_pos (pre ++ t1)) as Hp.
  assert (Hn : Wire.num_networks (pre ++ t2) = Wire.num_networks (pre ++ t1)).
  { unfold Wire.num_networks. rewrite !app_nth1 by lia. reflexivity. }
  assert (Ha : Wire.stations_at (pre ++ t2) = Wire.stations_at (pre ++ t1)).
  { unfold Wire.stations_at. now rewrite Hn. }
  assert (Hs : Wire.num_stations (pre ++ t2) = Wire.num_stations (pre ++ t1)).
  { unfold Wire.num_stations. rewrite Ha, !app_nth1 by lia. reflexivity. }
  repeat split; try assumption.
  - unfold Wire.networks. rewrite Hn.
    unfold Wire.stations_at in H.
    rewrite !chunks_skipn_app by lia. reflexivity.
  - unfold Wire.stations. rewrite Hs, Ha.
    rewrite !chunks_skipn_app by lia. reflexivity.
Qed.

Lemma chunks_length (size k : nat) : forall l : list byte,
  length (Wire.chunks size k l) = k.
Proof.
  induction k as [|k IH]; intros l; cbn [Wire.chunks length];
    [reflexivity | now rewrite IH].
Qed.

(** C10. When the parser returns without an error, the declared length
    of the buffer is within the buffer, the parser has appended as many
    network and station records as the two count bytes declare, and the
    result is the same whatever bytes follow the declared length: the
    rest of the buffer is not looked at. *)
Theorem netinfo_trailing_ignored (n n' : HomeplugNetworkInfo.t) (b : list byte)
  (Hok : HomeplugNetworkInfo.UnmarshalBinary n b = Ret (n', None)) :
  Wire.declared_length b <= length b /\
  length (HomeplugNetworkInfo.Networks n') =
    length (HomeplugNetworkInfo.Networks n) + Wire.num_networks b /\
  length (HomeplugNetworkInfo.Stations n') =
    length (HomeplugNetworkInfo.Stations n) + Wire.num_stations b /\
  forall tail : list byte,
    HomeplugNetworkInfo.UnmarshalBinary n
      (firstn (Wire.declared_length b) b ++ tail) = Ret (n', None).
Proof.
  assert (Hlen : Wire.declared_length b <= length b).
  { destruct (netinfo_cases b) as [E | [[H1 H] | [E | [[H1 H] | H]]]].
    - subst b. rewrite netinfo_empty in Hok. discriminate.
    - destruct (netinfo_networks_short n b H1 H) as [m E].
      rewrite E in Hok. discriminate.
    - rewrite (netinfo_no_station_count n b E) in Hok. discriminate.
    - destruct (netinfo_stations_short n b H1 H) as [m E].
      rewrite E in Hok. discriminate.
    - exact H. }
  rewrite (netinfo_ok n b Hlen) in Hok.
  injection Hok as <-.
  cbn [HomeplugNetworkInfo.Networks HomeplugNetworkInfo.Stations].
  unfold Wire.networks at 1, Wire.stations at 1.
  rewrite !length_app, !length_map, !chunks_length.
  repeat split; try reflexivity; try assumption.
  intros tail.
  set (d := Wire.declared_length b) in *.
  assert (Hb : b = firstn d b ++ skipn d b) by (symmetry; apply firstn_skipn).
  assert (Hpre : Wire.declared_length (firstn d b ++ skipn d b) <= length (firstn d b)).
  { rewrite <- Hb, length_firstn. fold d. lia. }
  destruct (wire_prefix (firstn d b) (skipn d b) tail Hpre)
    as (Hn & Hs & Hnets & Hstas).
  rewrite <- Hb in Hn, Hs, Hnets, Hstas.
  rewrite netinfo_ok.
  - now rewrite Hnets, Hstas.
  - unfold Wire.declared_length, Wire.stations_at. rewrite Hs, Hn.
    fold (Wire.stations_at b). fold (Wire.declared_length b). fold d.
    rewrite length_app, length_firstn. lia.
Qed.

Lemma netinfo_trailing_ignored_witness :
  HomeplugNetworkInfo.UnmarshalBinary HomeplugNetworkInfo.zero
    ([x00; x01] ++ repeat x07 15 ++ [xde; xad; xbe; xef]) =
  Ret (HomeplugNetworkInfo.mk []
         [HomeplugStationStatus.mk (repeat x07 6) x07 (repeat x07 6) x07 x07],
       None).
Proof.
  apply (netinfo_trailing_ignored HomeplugNetworkInfo.zero
           (HomeplugNetworkInfo.mk []
              [HomeplugStationStatus.mk (repeat x07 6) x07 (repeat x07 6) x07 x07])
           ([x00; x01] ++ repeat x07 15 ++ [xff; xff])
           eq_refl).
Defined.

(** ** The receive loop *)

Section ReceiveLoop.

Variable eth : list byte -> ethernet.Frame * option error.

Lemma read_homeplug_body_ok (data : list byte) :
  exists o : option HomeplugFrame.t,
    read_homeplug_body eth (ReadOk data) = Ret (Continue, o).
Proof.
  unfold read_homeplug_body.
  destruct (eth data) as [f [e|]]; [eauto|].
  destruct (Nat.lt_ge_cases (length (ethernet.Payload f)) 6) as [H|H].
  - rewrite (UnmarshalBinary_short HomeplugFrame.zero _ H).
    cbn [bind]. eauto.
  - rewrite (UnmarshalBinary_long HomeplugFrame.zero _ H).
    cbn [bind]. eauto.
Qed.

Lemma read_homeplug_returns (reads : list read_result) :
  exists sends : list HomeplugFrame.t, read_homeplug eth reads = Ret sends.
Proof.
  induction reads as [|[data|e] reads [sends IH]]; cbn [read_homeplug].
  - eauto.
  - destruct (read_homeplug_body_ok data) as [o ->]. cbn [bind].
    rewrite IH. cbn [bind]. eauto.
  - cbn [read_homeplug_body bind]. eauto.
Qed.

End ReceiveLoop.

(** C2, as the code has it. Every failed read ends the receive loop, a
    read that runs into its deadline included: the loop has sent the
    frames of the reads before the failure and makes no read after it. *)
Theorem read_error_ends_loop
  (eth : list byte -> ethernet.Frame * option error)
  (datas : list (list byte)) (e : error) (later : list read_result) :
  read_homeplug eth (map ReadOk datas ++ ReadErr e :: later) =
  read_homeplug eth (map ReadOk datas).
Proof.
  induction datas as [|data datas IH]; cbn [map app read_homeplug].
  - reflexivity.
  - destruct (read_homeplug_body_ok eth data) as [o ->]. cbn [bind].
    now rewrite IH.
Qed.

(** C2, counterexample. After a read that timed out, a frame that the
    socket would deliver to the next read is not received; a loop that
    retried the read would have sent it on the channel. *)
Lemma timeout_not_retried :
  let pkt := repeat xff 6 ++ repeat x01 6 ++ [x88; xe1]
               ++ [x00; x39; xa0; x00; xb0; x52; x00; x00] in
  read_homeplug ethernet_untagged [ReadErr ErrTimeout; ReadOk pkt] = Ret [] /\
  read_homeplug ethernet_untagged [ReadOk pkt] =
    Ret [HomeplugFrame.mk x00 nwInfoCnf hpVendor [x00; x00]] /\
  read_homeplug ethernet_untagged [ReadErr ErrTimeout; ReadOk pkt] <>
    read_homeplug ethernet_untagged [ReadOk pkt].
Proof.
  intros pkt. split; [reflexivity|]. split; [reflexivity|].
  vm_compute. discriminate.
Qed.

(** ** The collection cycle *)

Section Collector.

Variable ethernet_MarshalBinary : ethernet.Frame -> list byte * option error.
Variable conn_WriteTo : list byte -> HardwareAddr -> option error.
Variable select_tie : Z -> bool.

Lemma write_homeplug_returns (iface_addr dest : HardwareAddr) :
  exists err : option error,
    write_homeplug ethernet_MarshalBinary conn_WriteTo iface_addr dest = Ret err.
Proof.
  unfold write_homeplug. rewrite MarshalBinary_bytes. cbn [bind].
  destruct (ethernet_MarshalBinary _) as [b [e|]]; [eauto|].
  destruct (conn_WriteTo b dest); eauto.
Qed.

Lemma on_frame_records (ni : list HomeplugNetworkInfo.t) (h : HomeplugFrame.t) :
  Cycle.parser_returns h ->
  on_frame ni h = Ret (ni ++ Cycle.records h).
Proof.
  unfold Cycle.parser_returns, Cycle.records, on_frame. intros H.
  destruct (array2_eqb (HomeplugFrame.MMEType h) nwInfoCnf).
  - destruct (H eq_refl) as [[n [e|]] ->]; cbn [bind];
      [now rewrite app_nil_r | reflexivity].
  - now rewrite app_nil_r.
Qed.

Lemma ChanLoop_quiet (now : Z) (ch : list (Z * HomeplugFrame.t))
  (ni : list HomeplugNetworkInfo.t) :
  Cycle.quiet_after now ch ->
  ChanLoop select_tie now ch ni = Ret ((now + Second)%Z, ni).
Proof.
  destruct ch as [|[t h] ch]; cbn [Cycle.quiet_after ChanLoop]; intros H.
  - reflexivity.
  - replace (t <? now + Second)%Z with false by (symmetry; apply Z.ltb_ge; lia).
    replace (t =? now + Second)%Z with false by (symmetry; apply Z.eqb_neq; lia).
    reflexivity.
Qed.

Lemma ChanLoop_idle (received : list (Z * HomeplugFrame.t)) :
  forall (now : Z) (later : list (Z * HomeplugFrame.t))
         (ni : list HomeplugNetworkInfo.t),
  Cycle.under_a_second now received ->
  Forall (fun a => Cycle.parser_returns (snd a)) received ->
  Cycle.quiet_after (Cycle.last_received now received) later ->
  ChanLoop select_tie now (received ++ later) ni =
  Ret ((Cycle.last_received now received + Second)%Z,
       ni ++ flat_map (fun a => Cycle.records (snd a)) received).
Proof.
  induction received as [|[t h] received IH]; intros now later ni Hgap Hret Hq.
  - cbn [app Cycle.last_received flat_map] in *.
    rewrite app_nil_r. now apply ChanLoop_quiet.
  - cbn [Cycle.under_a_second] in Hgap. destruct Hgap as [Ht Hgap].
    inversion Hret as [|a l Hh Hrest]; subst. cbn [snd] in Hh.
    cbn [app ChanLoop Cycle.last_received flat_map snd] in *.
    apply Z.ltb_lt in Ht. rewrite Ht. cbn [orb].
    rewrite (on_frame_records ni h Hh). cbn [bind].
    rewrite (IH _ later _ Hgap Hrest Hq).
    now rewrite app_assoc.
Qed.

End Collector.

(** C7. When [write_homeplug] returns an error, [get_homeplug_netinfo]
    returns at the same instant, whatever the receive task has sent or
    will send: it receives no frame, and it returns [nil] with the
    error, wrapped as ["write_homeplug failed: ..."]. A failed socket
    write is such an error. *)
Theorem send_failure_aborts_cycle
  (ethernet_MarshalBinary : ethernet.Frame -> list byte * option error)
  (conn_WriteTo : list byte -> HardwareAddr -> option error)
  (select_tie : Z -> bool) (iface_addr dest : HardwareAddr) :
  (forall (e : error) (now : Z) (ch : list (Z * HomeplugFrame.t)),
     write_homeplug ethernet_MarshalBinary conn_WriteTo iface_addr dest =
       Ret (Some e) ->
     get_homeplug_netinfo ethernet_MarshalBinary conn_WriteTo select_tie
       iface_addr dest now ch =
     Ret (now, ([], Some (Errorf "write_homeplug failed" e)))) /\
  (forall (b : list byte) (e : error),
     ethernet_MarshalBinary
       (ethernet.mk dest iface_addr etherType [x00; x38; xa0; x00; xb0; x52]) =
       (b, None) ->
     conn_WriteTo b dest = Some e ->
     write_homeplug ethernet_MarshalBinary conn_WriteTo iface_addr dest =
       Ret (Some (Errorf "failed to send message" e))).
Proof.
  split.
  - intros e now ch Hw. unfold get_homeplug_netinfo. now rewrite Hw.
  - intros b e Hm Hw. unfold write_homeplug.
    rewrite MarshalBinary_bytes. cbn [bind].
    cbn [HomeplugFrame.Version HomeplugFrame.MMEType HomeplugFrame.Vendor
         HomeplugFrame.Payload fst snd hpVersion nwInfoReq hpVendor].
    unfold hpVersion. now rewrite Hm, Hw.
Qed.

Lemma send_failure_aborts_cycle_witness :
  let marshal := fun f : ethernet.Frame =>
    (ethernet.Destination f ++ ethernet.Source f ++ [x88; xe1]
       ++ ethernet.Payload f, @None error) in
  let down := fun (_ : list byte) (_ : HardwareAddr) =>
    Some (ErrIO "network is down") in
  let confirm := HomeplugFrame.mk x00 nwInfoCnf hpVendor [x00; x00] in
  get_homeplug_netinfo marshal down (fun _ => true)
    (repeat x01 6) (repeat xff 6) 0 [(1%Z, confirm)] =
  Ret (0%Z, ([], Some (Errorf "write_homeplug failed"
                         (Errorf "failed to send message"
                            (ErrIO "network is down"))))).
Proof.
  intros marshal down confirm.
  destruct (send_failure_aborts_cycle marshal down (fun _ => true)
              (repeat x01 6) (repeat xff 6)) as [Habort Hsend].
  apply Habort.
  apply (Hsend (repeat xff 6 ++ repeat x01 6 ++ [x88; xe1]
                  ++ [x00; x38; xa0; x00; xb0; x52])); reflexivity.
Defined.

(** C9. The collector waits on an idle timeout, and a panic of the
    parser cuts the wait short. When the send has succeeded:
    - every frame that is ready less than one second after the loop
      entered its [select] is received, whatever the time since the
      start of the cycle, and each reception starts a new second; when
      then no frame is ready within one second of the last reception,
      the cycle returns at that reception plus one second, with the
      records of all the frames received, in order, and without those
      of any later frame, provided the parser returns on the payload of
      every confirm frame received;
    - without that proviso the cycle does not end on the timeout: a
      confirm frame that parses, ready after 0.1 s, followed by a
      confirm frame of 52 bytes that declares 3 networks and ends after
      them, ready after 0.2 s, makes the cycle panic with an index out
      of range; no result is returned and the records of the first
      frame are lost. *)
Theorem idle_timeout_unless_parser_panics
  (ethernet_MarshalBinary : ethernet.Frame -> list byte * option error)
  (conn_WriteTo : list byte -> HardwareAddr -> option error)
  (select_tie : Z -> bool) (iface_addr dest : HardwareAddr)
  (Hsend : write_homeplug ethernet_MarshalBinary conn_WriteTo iface_addr dest =
             Ret None) :
  (forall (now : Z) (received later : list (Z * HomeplugFrame.t)),
     Cycle.under_a_second now received ->
     Cycle.quiet_after (Cycle.last_received now received) later ->
     Forall (fun a => Cycle.parser_returns (snd a)) received ->
     get_homeplug_netinfo ethernet_MarshalBinary conn_WriteTo select_tie
       iface_addr dest now (received ++ later) =
     Ret ((Cycle.last_received now received + Second)%Z,
          (flat_map (fun a => Cycle.records (snd a)) received, None))) /\
  (forall (now : Z) (later : list (Z * HomeplugFrame.t)),
     let good := HomeplugFrame.mk x00 nwInfoCnf hpVendor
                   ([x00; x01] ++ repeat x00 13 ++ [x64; x32]) in
     let bad := HomeplugFrame.mk x00 nwInfoCnf hpVendor (x03 :: repeat x00 51) in
     Cycle.records good <> [] /\
     get_homeplug_netinfo ethernet_MarshalBinary conn_WriteTo select_tie
       iface_addr dest now
       ((now + 100000000, good)%Z :: (now + 200000000, bad)%Z :: later) =
     Panic IndexOutOfRange).
Proof.
  split.
  - intros now received later Hgaps Hquiet Hret.
    unfold get_homeplug_netinfo. rewrite Hsend. cbn [bind].
    rewrite (ChanLoop_idle select_tie received now later [] Hgaps Hret Hquiet).
    reflexivity.
  - intros now later good bad. split; [discriminate|].
    unfold get_homeplug_netinfo. rewrite Hsend. cbn [bind ChanLoop].
    replace (now + 100000000 <? now + Second)%Z with true
      by (symmetry; apply Z.ltb_lt; unfold Second; lia).
    cbn [orb].
    change (on_frame [] good)
      with (Ret [HomeplugNetworkInfo.mk []
                   [HomeplugStationStatus.mk (repeat x00 6) x00 (repeat x00 6)
                      x64 x32]]).
    cbn [bind].
    replace (now + 200000000 <? Z.max now (now + 100000000) + Second)%Z
      with true by (symmetry; apply Z.ltb_lt; unfold Second; lia).
    reflexivity.
Qed.

Lemma idle_timeout_unless_parser_panics_witness :
  let marshal := fun f : ethernet.Frame =>
    (ethernet.Destination f ++ ethernet.Source f ++ [x88; xe1]
       ++ ethernet.Payload f, @None error) in
  let up := fun (_ : list byte) (_ : HardwareAddr) => @None error in
  let confirm := HomeplugFrame.mk x00 nwInfoCnf hpVendor
                   ([x00; x01] ++ repeat x00 13 ++ [x64; x32]) in
  let other := HomeplugFrame.mk x00 nwInfoReq hpVendor [] in
  let bad := HomeplugFrame.mk x00 nwInfoCnf hpVendor (x03 :: repeat x00 51) in
  let station := HomeplugStationStatus.mk (repeat x00 6) x00 (repeat x00 6)
                   x64 x32 in
  get_homeplug_netinfo marshal up (fun _ => false)
    (repeat x01 6) (repeat xff 6) 0
    ([(900000000%Z, confirm); (1800000000%Z, other); (2700000000%Z, confirm)]
       ++ [(3800000000%Z, confirm)]) =
  Ret (3700000000%Z,
       ([HomeplugNetworkInfo.mk [] [station];
         HomeplugNetworkInfo.mk [] [station]], None)) /\
  get_homeplug_netinfo marshal up (fun _ => false)
    (repeat x01 6) (repeat xff 6) 0
    [(100000000%Z, confirm); (200000000%Z, bad)] =
  Panic IndexOutOfRange.
Proof.
  intros marshal up confirm other bad station.
  destruct (idle_timeout_unless_parser_panics marshal up (fun _ => false)
              (repeat x01 6) (repeat xff 6) eq_refl) as [Hidle Hpanic].
  split.
  - apply (Hidle 0%Z
             [(900000000%Z, confirm); (1800000000%Z, other);
              (2700000000%Z, confirm)]
             [(3800000000%Z, confirm)]).
    + cbn [Cycle.under_a_second]. repeat split; reflexivity.
    + reflexivity.
    + apply Forall_cons; [intros _; eexists; reflexivity|].
      apply Forall_cons; [intros H; discriminate H|].
      apply Forall_cons; [intros _; eexists; reflexivity|].
      apply Forall_nil.
  - apply (Hpanic 0%Z []).
Defined.

(** ** More on the frame codec *)


Lemma copy_same_length (dst src : list byte) :
  length dst = length src -> copy dst src = src.
Proof.
  intros H. unfold copy.
  rewrite H, firstn_all, skipn_all2 by lia. apply app_nil_r.
Qed.

(** X1. The codec is also the identity in the other direction: a buffer
    of 6 bytes or more unmarshals into a frame, whatever the receiver
    held, and that frame marshals back into the same buffer. *)
Theorem frame_decode_encode (h0 : HomeplugFrame.t) (b : list byte)
  (Hlen : 6 <= length b) :
  exists h : HomeplugFrame.t,
    HomeplugFrame.UnmarshalBinary h0 b = Ret (h, None) /\
    HomeplugFrame.MarshalBinary h = Ret (b, None).
Proof.
  do 6 (destruct b as [|? b]; [simpl in Hlen; lia|]).
  eexists. split; [apply UnmarshalBinary_bytes|].
  now rewrite MarshalBinary_bytes.
Qed.

Lemma frame_decode_encode_witness :
  exists h : HomeplugFrame.t,
    HomeplugFrame.UnmarshalBinary HomeplugFrame.zero
      [x00; x39; xa0; x00; xb0; x52; x01; x02] = Ret (h, None) /\
    HomeplugFrame.MarshalBinary h =
      Ret ([x00; x39; xa0; x00; xb0; x52; x01; x02], None).
Proof.
  apply (frame_decode_encode HomeplugFrame.zero
           [x00; x39; xa0; x00; xb0; x52; x01; x02]).
  simpl. lia.
Defined.



(** ** More on the record decoders *)

(** X3. A network record is decoded from the first 17 bytes alone and
    overwrites the whole receiver (whose [NetworkID] array has 7
    bytes): the fields are the bytes at offsets 0-6, 7, 8, 9, 10-15 and
    16, the size read is 17, and neither the bytes that follow nor the
    old fields matter. On fewer than 17 bytes the receiver is left as it
    was and the size read is 0. *)
Theorem network_record_decode (s : HomeplugNetworkStatus.t) (b : list byte)
  (Hid : length (HomeplugNetworkStatus.NetworkID s) = 7) :
  (length b < 17 ->
   HomeplugNetworkStatus.UnmarshalBinary s b =
     Ret (s, (0, Some ErrUnexpectedEOF))) /\
  (17 <= length b ->
   HomeplugNetworkStatus.UnmarshalBinary s b =
     Ret (HomeplugNetworkStatus.mk (firstn 7 b) (nth 7 b x00) (nth 8 b x00)
            (nth 9 b x00) (firstn 6 (skipn 10 b)) (nth 16 b x00),
          (17, None)) /\
   forall tail : list byte,
     HomeplugNetworkStatus.UnmarshalBinary s (firstn 17 b ++ tail) =
     HomeplugNetworkStatus.UnmarshalBinary s b).
Proof.
  split; intros Hlen; [now apply NetworkStatus_short|].
  do 17 (destruct b as [|? b]; [simpl in Hlen; lia|]).
  assert (Hgen : forall rest : list byte,
    HomeplugNetworkStatus.UnmarshalBinary s
      (b0 :: b1 :: b2 :: b3 :: b4 :: b5 :: b6 :: b7 :: b8 :: b9 :: b10
          :: b11 :: b12 :: b13 :: b14 :: b15 :: b16 :: rest) =
    Ret (HomeplugNetworkStatus.mk [b0; b1; b2; b3; b4; b5; b6] b7 b8 b9
           [b10; b11; b12; b13; b14; b15] b16, (17, None))).
  { intros rest. unfold HomeplugNetworkStatus.UnmarshalBinary.
    cbn [length Nat.ltb Nat.leb slice index nth_error bind andb Nat.sub
         skipn firstn].
    rewrite copy_same_length by (rewrite Hid; reflexivity).
    reflexivity. }
  split.
  - rewrite Hgen. reflexivity.
  - intros tail. cbn [firstn app]. now rewrite !Hgen.
Qed.

Lemma network_record_decode_witness :
  HomeplugNetworkStatus.UnmarshalBinary HomeplugNetworkStatus.zero
    (repeat x05 16) =
    Ret (HomeplugNetworkStatus.zero, (0, Some ErrUnexpectedEOF)) /\
  HomeplugNetworkStatus.UnmarshalBinary HomeplugNetworkStatus.zero
    (repeat x05 7 ++ [x01; x02; x03] ++ repeat x06 6 ++ [x04; xff]) =
    Ret (HomeplugNetworkStatus.mk (repeat x05 7) x01 x02 x03 (repeat x06 6) x04,
         (17, None)).
Proof.
  split.
  - apply (proj1 (network_record_decode HomeplugNetworkStatus.zero
                    (repeat x05 16) eq_refl)).
    simpl. lia.
  - apply (proj2 (network_record_decode HomeplugNetworkStatus.zero
                    (repeat x05 7 ++ [x01; x02; x03] ++ repeat x06 6
                       ++ [x04; xff]) eq_refl)).
    simpl. lia.
Defined.

(** X4. A station record is decoded from the first 15 bytes alone and
    overwrites the whole receiver: the fields are the bytes at offsets
    0-5, 6, 7-12, 13 and 14, the size read is 15. On fewer than 15
    bytes the receiver is left as it was and the size read is 0. *)
Theorem station_record_decode (s : HomeplugStationStatus.t) (b : list byte) :
  (length b < 15 ->
   HomeplugStationStatus.UnmarshalBinary s b =
     Ret (s, (0, Some ErrUnexpectedEOF))) /\
  (15 <= length b ->
   HomeplugStationStatus.UnmarshalBinary s b =
     Ret (HomeplugStationStatus.mk (firstn 6 b) (nth 6 b x00)
            (firstn 6 (skipn 7 b)) (nth 13 b x00) (nth 14 b x00),
          (15, None)) /\
   forall tail : list byte,
     HomeplugStationStatus.UnmarshalBinary s (firstn 15 b ++ tail) =
     HomeplugStationStatus.UnmarshalBinary s b).
Proof.
  split; intros Hlen; [now apply StationStatus_short|].
  do 15 (destruct b as [|? b]; [simpl in Hlen; lia|]).
  split; [reflexivity|].
  intros tail. reflexivity.
Qed.

Lemma station_record_decode_witness :
  HomeplugStationStatus.UnmarshalBinary HomeplugStationStatus.zero
    (repeat x05 14) =
    Ret (HomeplugStationStatus.zero, (0, Some ErrUnexpectedEOF)) /\
  HomeplugStationStatus.UnmarshalBinary HomeplugStationStatus.zero
    (repeat x05 6 ++ [x01] ++ repeat x06 6 ++ [x64; x32; xff]) =
    Ret (HomeplugStationStatus.mk (repeat x05 6) x01 (repeat x06 6) x64 x32,
         (15, None)).
Proof.
  split.
  - apply (proj1 (station_record_decode HomeplugStationStatus.zero
                    (repeat x05 14))).
    simpl. lia.
  - apply (proj2 (station_record_decode HomeplugStationStatus.zero
                    (repeat x05 6 ++ [x01] ++ repeat x06 6 ++ [x64; x32; xff]))).
    simpl. lia.
Defined.

(** ** More on the network-info parser *)

Lemma chunks_nth (size : nat) (k : nat) : forall (i : nat) (l : list byte),
  i < k ->
  nth_error (Wire.chunks size k l) i = Some (firstn size (skipn (size * i) l)).
Proof.
  induction k as [|k IH]; intros i l Hi; [lia|].
  destruct i as [|i]; cbn [Wire.chunks nth_error].
  - now rewrite Nat.mul_0_r.
  - rewrite IH by lia. rewrite skipn_skipn.
    now replace (size * i + size) with (size * S i) by lia.
Qed.

(** X5. Records come out in wire order, at fixed offsets: when the
    parser returns without an error on a fresh receiver, the network
    of index [i] is decoded from the 17 bytes at offset [1 + 17 * i] and
    the station of index [j] from the 15 bytes at offset
    [1 + 17 * N + 1 + 15 * j], [N] being the first count byte. *)
Theorem netinfo_records_by_offset (b : list byte) (n' : HomeplugNetworkInfo.t)
  (Hok : HomeplugNetworkInfo.UnmarshalBinary HomeplugNetworkInfo.zero b =
           Ret (n', None)) :
  (forall i : nat, i < Wire.num_networks b ->
     nth_error (HomeplugNetworkInfo.Networks n') i =
     Some (Wire.network (firstn 17 (skipn (1 + 17 * i) b)))) /\
  (forall j : nat, j < Wire.num_stations b ->
     nth_error (HomeplugNetworkInfo.Stations n') j =
     Some (Wire.station
             (firstn 15 (skipn (1 + 17 * Wire.num_networks b + 1 + 15 * j) b)))).
Proof.
  assert (Hlen : Wire.declared_length b <= length b).
  { destruct (netinfo_cases b) as [E | [[H1 H] | [E | [[H1 H] | H]]]].
    - subst b. rewrite netinfo_empty in Hok. discriminate.
    - destruct (netinfo_networks_short HomeplugNetworkInfo.zero b H1 H) as [m E].
      rewrite E in Hok. discriminate.
    - rewrite (netinfo_no_station_count HomeplugNetworkInfo.zero b E) in Hok.
      discriminate.
    - destruct (netinfo_stations_short HomeplugNetworkInfo.zero b H1 H) as [m E].
      rewrite E in Hok. discriminate.
    - exact H. }
  rewrite (netinfo_ok HomeplugNetworkInfo.zero b Hlen) in Hok.
  injection Hok as <-.
  cbn [HomeplugNetworkInfo.Networks HomeplugNetworkInfo.Stations
       HomeplugNetworkInfo.zero app].
  unfold Wire.networks, Wire.stations, Wire.stations_at.
  split; intros i Hi.
  - rewrite nth_error_map, chunks_nth by exact Hi.
    cbn [option_map]. rewrite skipn_skipn.
    now replace (17 * i + 1) with (1 + 17 * i) by lia.
  - rewrite nth_error_map, chunks_nth by exact Hi.
    cbn [option_map]. rewrite skipn_skipn.
    now replace (15 * i + (1 + 17 * Wire.num_networks b + 1))
      with (1 + 17 * Wire.num_networks b + 1 + 15 * i) by lia.
Qed.

Lemma netinfo_records_by_offset_witness :
  nth_error
    (HomeplugNetworkInfo.Stations
       (HomeplugNetworkInfo.mk []
          [HomeplugStationStatus.mk (repeat x07 6) x07 (repeat x07 6) x07 x07;
           HomeplugStationStatus.mk (repeat x09 6) x09 (repeat x09 6) x09 x09]))
    1 =
  Some (HomeplugStationStatus.mk (repeat x09 6) x09 (repeat x09 6) x09 x09).
Proof.
  apply (proj2 (netinfo_records_by_offset
                  ([x00; x02] ++ repeat x07 15 ++ repeat x09 15)
                  (HomeplugNetworkInfo.mk []
                     [HomeplugStationStatus.mk (repeat x07 6) x07 (repeat x07 6)
                        x07 x07;
                      HomeplugStationStatus.mk (repeat x09 6) x09 (repeat x09 6)
                        x09 x09])
                  eq_refl) 1).
  vm_compute. lia.
Defined.

Lemma info_append_network (n m : HomeplugNetworkInfo.t)
  (ns : HomeplugNetworkStatus.t) :
  HomeplugNetworkInfo.mk
    (HomeplugNetworkInfo.Networks (info_append n m) ++ [ns])
    (HomeplugNetworkInfo.Stations (info_append n m)) =
  info_append n
    (HomeplugNetworkInfo.mk (HomeplugNetworkInfo.Networks m ++ [ns])
       (HomeplugNetworkInfo.Stations m)).
Proof.
  unfold info_append.
  cbn [HomeplugNetworkInfo.Networks HomeplugNetworkInfo.Stations].
  now rewrite app_assoc.
Qed.

Lemma info_append_station (n m : HomeplugNetworkInfo.t)
  (ss : HomeplugStationStatus.t) :
  HomeplugNetworkInfo.mk
    (HomeplugNetworkInfo.Networks (info_append n m))
    (HomeplugNetworkInfo.Stations (info_append n m) ++ [ss]) =
  info_append n
    (HomeplugNetworkInfo.mk (HomeplugNetworkInfo.Networks m)
       (HomeplugNetworkInfo.Stations m ++ [ss])).
Proof.
  unfold info_append.
  cbn [HomeplugNetworkInfo.Networks HomeplugNetworkInfo.Stations].
  now rewrite app_assoc.
Qed.

Lemma networks_loop_append (k : nat) : forall (n m : HomeplugNetworkInfo.t)
  (b : list byte) (o : nat),
  HomeplugNetworkInfo.networks_loop k (info_append n m) b o =
  '(m', o', err) <- HomeplugNetworkInfo.networks_loop k m b o ;;
  Ret (info_append n m', o', err).
Proof.
  induction k as [|k IH]; intros n m b o; cbn [HomeplugNetworkInfo.networks_loop].
  - reflexivity.
  - destruct (slice_from b o) as [tl|e]; cbn [bind]; [|reflexivity].
    destruct (HomeplugNetworkStatus.UnmarshalBinary _ tl)
      as [[ns [size [e|]]]|e]; cbn [bind]; try reflexivity.
    rewrite info_append_network. apply IH.
Qed.

Lemma stations_loop_append (k : nat) : forall (n m : HomeplugNetworkInfo.t)
  (b : list byte) (o : nat),
  HomeplugNetworkInfo.stations_loop k (info_append n m) b o =
  '(m', o', err) <- HomeplugNetworkInfo.stations_loop k m b o ;;
  Ret (info_append n m', o', err).
Proof.
  induction k as [|k IH]; intros n m b o; cbn [HomeplugNetworkInfo.stations_loop].
  - reflexivity.
  - destruct (slice_from b o) as [tl|e]; cbn [bind]; [|reflexivity].
    destruct (HomeplugStationStatus.UnmarshalBinary _ tl)
      as [[ss [size [e|]]]|e]; cbn [bind]; try reflexivity.
    rewrite info_append_station. apply IH.
Qed.

(** X6. The parser appends to its receiver and never resets it: run on
    a receiver that already holds records, it returns what it returns
    on a fresh receiver, error and partial records included, appended
    to the records held; and it panics on the same buffers. *)
Theorem netinfo_appends_to_receiver (n : HomeplugNetworkInfo.t) (b : list byte) :
  HomeplugNetworkInfo.UnmarshalBinary n b =
  '(m, err) <- HomeplugNetworkInfo.UnmarshalBinary HomeplugNetworkInfo.zero b ;;
  Ret (info_append n m, err).
Proof.
  assert (Hn : n = info_append n HomeplugNetworkInfo.zero).
  { destruct n as [nets stas]. unfold info_append.
    cbn [HomeplugNetworkInfo.Networks HomeplugNetworkInfo.Stations
         HomeplugNetworkInfo.zero].
    now rewrite !app_nil_r. }
  rewrite Hn at 1.
  unfold HomeplugNetworkInfo.UnmarshalBinary.
  destruct (index b 0) as [x|e]; cbn [bind]; [|reflexivity].
  rewrite networks_loop_append.
  destruct (HomeplugNetworkInfo.networks_loop _ _ b (0 + 1))
    as [[[m o] [e|]]|e]; cbn [bind]; try reflexivity.
  destruct (index b o) as [y|e]; cbn [bind]; [|reflexivity].
  rewrite stations_loop_append.
  destruct (HomeplugNetworkInfo.stations_loop _ _ b (o + 1))
    as [[[m' o'] [e|]]|e]; cbn [bind]; reflexivity.
Qed.

Lemma networks_loop_partial (j : nat) : forall (k : nat)
  (n : HomeplugNetworkInfo.t) (b : list byte) (o : nat),
  k < j -> o + 17 * k <= length b -> length b < o + 17 * (k + 1) ->
  HomeplugNetworkInfo.networks_loop j n b o =
  Ret (HomeplugNetworkInfo.mk
         (HomeplugNetworkInfo.Networks n
            ++ map Wire.network (Wire.chunks 17 k (skipn o b)))
         (HomeplugNetworkInfo.Stations n),
       o + 17 * k, Some ErrUnexpectedEOF).
Proof.
  induction j as [|j IH]; intros k n b o Hk Hlo Hhi; [lia|].
  cbn [HomeplugNetworkInfo.networks_loop].
  rewrite slice_from_ok by lia. cbn [bind].
  destruct k as [|k].
  - rewrite NetworkStatus_short by (rewrite length_skipn; lia).
    cbn [bind Wire.chunks map].
    rewrite app_nil_r, Nat.mul_0_r, Nat.add_0_r. now destruct n.
  - rewrite NetworkStatus_ok by (rewrite length_skipn; lia).
    cbn [bind]. rewrite (IH k) by lia.
    cbn [HomeplugNetworkInfo.Networks HomeplugNetworkInfo.Stations
         Wire.chunks map].
    rewrite skipn_skipn, <- app_assoc. cbn [app].
    replace (o + 17 + 17 * k) with (o + 17 * S k) by lia.
    now replace (17 + o) with (o + 17) by lia.
Qed.

Lemma stations_loop_partial (j : nat) : forall (k : nat)
  (n : HomeplugNetworkInfo.t) (b : list byte) (o : nat),
  k < j -> o + 15 * k <= length b -> length b < o + 15 * (k + 1) ->
  HomeplugNetworkInfo.stations_loop j n b o =
  Ret (HomeplugNetworkInfo.mk
         (HomeplugNetworkInfo.Networks n)
         (HomeplugNetworkInfo.Stations n
            ++ map Wire.station (Wire.chunks 15 k (skipn o b))),
       o + 15 * k, Some ErrUnexpectedEOF).
Proof.
  induction j as [|j IH]; intros k n b o Hk Hlo Hhi; [lia|].
  cbn [HomeplugNetworkInfo.stations_loop].
  rewrite slice_from_ok by lia. cbn [bind].
  destruct k as [|k].
  - rewrite StationStatus_short by (rewrite length_skipn; lia).
    cbn [bind Wire.chunks map].
    rewrite app_nil_r, Nat.mul_0_r, Nat.add_0_r. now destruct n.
  - rewrite StationStatus_ok by (rewrite length_skipn; lia).
    cbn [bind]. rewrite (IH k) by lia.
    cbn [HomeplugNetworkInfo.Networks HomeplugNetworkInfo.Stations
         Wire.chunks map].
    rewrite skipn_skipn, <- app_assoc. cbn [app].
    replace (o + 15 + 15 * k) with (o + 15 * S k) by lia.
    now replace (15 + o) with (o + 15) by lia.
Qed.

(** X7. A truncation error does not roll the receiver back. When the
    buffer ends inside network record [k] (counting from 0) the parser
    returns [io.ErrUnexpectedEOF] with the [k] complete network records
    appended to the receiver; when it ends inside station record [k] it
    returns the error with all the declared networks and the [k]
    complete station records appended. *)
Theorem netinfo_truncated_keeps_prefix (n : HomeplugNetworkInfo.t)
  (b : list byte) (k : nat) :
  (k < Wire.num_networks b ->
   1 + 17 * k <= length b -> length b < 1 + 17 * (k + 1) ->
   HomeplugNetworkInfo.UnmarshalBinary n b =
   Ret (HomeplugNetworkInfo.mk
          (HomeplugNetworkInfo.Networks n
             ++ map Wire.network (Wire.chunks 17 k (skipn 1 b)))
          (HomeplugNetworkInfo.Stations n),
        Some ErrUnexpectedEOF)) /\
  (k < Wire.num_stations b ->
   Wire.stations_at b + 1 + 15 * k <= length b ->
   length b < Wire.stations_at b + 1 + 15 * (k + 1) ->
   HomeplugNetworkInfo.UnmarshalBinary n b =
   Ret (HomeplugNetworkInfo.mk
          (HomeplugNetworkInfo.Networks n ++ Wire.networks b)
          (HomeplugNetworkInfo.Stations n
             ++ map Wire.station
                  (Wire.chunks 15 k (skipn (Wire.stations_at b + 1) b))),
        Some ErrUnexpectedEOF)).
Proof.
  split; intros Hk Hlo Hhi.
  - unfold HomeplugNetworkInfo.UnmarshalBinary.
    rewrite index_ok by lia. cbn [bind].
    fold (Wire.num_networks b).
    rewrite (networks_loop_partial (Wire.num_networks b) k n b (0 + 1))
      by (cbn [Nat.add]; lia).
    reflexivity.
  - pose proof (stations_at_pos b) as Hp.
    unfold HomeplugNetworkInfo.UnmarshalBinary.
    rewrite index_ok by lia. cbn [bind].
    fold (Wire.num_networks b).
    rewrite networks_loop_ok by (unfold Wire.stations_at in Hlo; lia).
    cbn [bind].
    change (0 + 1 + 17 * Wire.num_networks b) with (Wire.stations_at b).
    rewrite index_ok by lia. cbn [bind].
    fold (Wire.num_stations b).
    rewrite (stations_loop_partial (Wire.num_stations b) k) by lia.
    reflexivity.
Qed.

Lemma netinfo_truncated_keeps_prefix_witness :
  HomeplugNetworkInfo.UnmarshalBinary HomeplugNetworkInfo.zero
    (x02 :: repeat x01 17 ++ repeat x02 5) =
    Ret (HomeplugNetworkInfo.mk
           [HomeplugNetworkStatus.mk (repeat x01 7) x01 x01 x01 (repeat x01 6) x01]
           [], Some ErrUnexpectedEOF) /\
  HomeplugNetworkInfo.UnmarshalBinary HomeplugNetworkInfo.zero
    ([x00; x02] ++ repeat x03 15 ++ repeat x04 14) =
    Ret (HomeplugNetworkInfo.mk []
           [HomeplugStationStatus.mk (repeat x03 6) x03 (repeat x03 6) x03 x03],
         Some ErrUnexpectedEOF).
Proof.
  split.
  - apply (proj1 (netinfo_truncated_keeps_prefix HomeplugNetworkInfo.zero
                    (x02 :: repeat x01 17 ++ repeat x02 5) 1));
      vm_compute; lia.
  - apply (proj2 (netinfo_truncated_keeps_prefix HomeplugNetworkInfo.zero
                    ([x00; x02] ++ repeat x03 15 ++ repeat x04 14) 1));
      vm_compute; lia.
Defined.

(** ** More on the receive loop and the sender *)

Lemma read_homeplug_body_frames
  (eth : list byte -> ethernet.Frame * option error) (data : list byte) :
  exists o : option HomeplugFrame.t,
    read_homeplug_body eth (ReadOk data) = Ret (Continue, o) /\
    sent o = Receive.frames_of eth data.
Proof.
  unfold read_homeplug_body, Receive.frames_of.
  destruct (eth data) as [f [e|]]; [eauto|].
  destruct (Nat.lt_ge_cases (length (ethernet.Payload f)) 6) as [H|H].
  - rewrite (UnmarshalBinary_short HomeplugFrame.zero _ H).
    apply Nat.ltb_lt in H. rewrite H. cbn [bind]. eauto.
  - rewrite (UnmarshalBinary_long HomeplugFrame.zero _ H).
    apply Nat.ltb_ge in H. rewrite H. cbn [bind]. eauto.
Qed.

(** X8. The receive loop never panics, whatever the socket delivers. It
    sends on the channel, in the order of the reads, one frame for each
    read before the first failed read whose bytes the Ethernet decoder
    accepts with a payload of 6 bytes or more; the other reads are
    skipped and the loop goes on. *)
Theorem read_homeplug_sends
  (eth : list byte -> ethernet.Frame * option error)
  (reads : list read_result) :
  read_homeplug eth reads =
  Ret (flat_map (Receive.frames_of eth) (Receive.before_error reads)).
Proof.
  induction reads as [|[data|e] reads IH];
    cbn [read_homeplug Receive.before_error flat_map].
  - reflexivity.
  - destruct (read_homeplug_body_frames eth data) as (o & -> & <-).
    cbn [bind]. rewrite IH. reflexivity.
  - reflexivity.
Qed.

(** X9. The sender gives the Ethernet library one frame: destination
    [dest], source the hardware address of the interface, EtherType
    [0x88E1], payload the six bytes [00 38 A0 00 B0 52]. It never
    panics, the branch for a failed marshalling of the HomePlug frame is
    never taken, and it returns [nil] exactly when the Ethernet
    marshalling and the socket write both succeed. *)
Theorem write_homeplug_request
  (ethernet_MarshalBinary : ethernet.Frame -> list byte * option error)
  (conn_WriteTo : list byte -> HardwareAddr -> option error)
  (iface_addr dest : HardwareAddr) :
  let f := ethernet.mk dest iface_addr 0x88E1
             [x00; x38; xa0; x00; xb0; x52] in
  write_homeplug ethernet_MarshalBinary conn_WriteTo iface_addr dest =
  Ret (match ethernet_MarshalBinary f with
       | (_, Some e) => Some (Errorf "failed to marshal ethernet frame" e)
       | (b, None) =>
           match conn_WriteTo b dest with
           | Some e => Some (Errorf "failed to send message" e)
           | None => None
           end
       end).
Proof.
  intros f. unfold write_homeplug.
  rewrite MarshalBinary_bytes. cbn [bind].
  cbn [HomeplugFrame.Version HomeplugFrame.MMEType HomeplugFrame.Vendor
       HomeplugFrame.Payload fst snd].
  change (ethernet.mk dest iface_addr etherType
            [hpVersion; snd nwInfoReq; fst nwInfoReq; fst (fst hpVendor);
             snd (fst hpVendor); snd hpVendor]) with f.
  destruct (ethernet_MarshalBinary f) as [b [e|]]; [reflexivity|].
  destruct (conn_WriteTo b dest); reflexivity.
Qed.

(** ** More on the collection cycle *)

Lemma on_frame_grows (ni ni' : list HomeplugNetworkInfo.t) (h : HomeplugFrame.t) :
  on_frame ni h = Ret ni' ->
  exists added : list HomeplugNetworkInfo.t,
    ni' = ni ++ added /\
    length added <=
      length (filter (fun a : Z * HomeplugFrame.t =>
                        array2_eqb (HomeplugFrame.MMEType (snd a)) nwInfoCnf)
                [(0%Z, h)]).
Proof.
  unfold on_frame. cbn [filter snd].
  destruct (array2_eqb (HomeplugFrame.MMEType h) nwInfoCnf).
  - destruct (HomeplugNetworkInfo.UnmarshalBinary _ _) as [[n [e|]]|e];
      cbn [bind]; intros E; try discriminate; injection E as <-.
    + exists []. rewrite app_nil_r. split; [reflexivity | cbn; lia].
    + exists [n]. split; [reflexivity | cbn; lia].
  - intros E. injection E as <-. exists []. rewrite app_nil_r.
    split; [reflexivity | cbn; lia].
Qed.

Lemma ChanLoop_bounds (select_tie : Z -> bool)
  (ch : list (Z * HomeplugFrame.t)) :
  forall (now t : Z) (ni ni' : list HomeplugNetworkInfo.t),
  ChanLoop select_tie now ch ni = Ret (t, ni') ->
  (now + Second <= t)%Z /\
  exists added : list HomeplugNetworkInfo.t,
    ni' = ni ++ added /\
    length added <=
      length (filter (fun a : Z * HomeplugFrame.t =>
                        array2_eqb (HomeplugFrame.MMEType (snd a)) nwInfoCnf)
                ch).
Proof.
  induction ch as [|[t0 h] ch IH]; intros now t ni ni' E; cbn [ChanLoop] in E.
  - injection E as <- <-. split; [lia|].
    exists []. rewrite app_nil_r. split; [reflexivity | cbn; lia].
  - destruct ((t0 <? now + Second)%Z
              || (t0 =? now + Second)%Z && select_tie (now + Second)%Z).
    + destruct (on_frame ni h) as [ni1|e] eqn:Eon; cbn [bind] in E;
        [|discriminate].
      destruct (on_frame_grows ni ni1 h Eon) as (a1 & -> & Hl1).
      destruct (IH _ _ _ _ E) as (Ht & a2 & -> & Hl2).
      split; [lia|].
      exists (a1 ++ a2). rewrite app_assoc. split; [reflexivity|].
      rewrite length_app. cbn [filter snd length] in *.
      destruct (array2_eqb (HomeplugFrame.MMEType h) nwInfoCnf);
        cbn [length] in *; lia.
    + injection E as <- <-. split; [lia|].
      exists []. rewrite app_nil_r. split; [reflexivity | cbn [length]; lia].
Qed.

(** X10. A cycle whose send succeeded never returns in less than one
    second: the instant of its return is at least one second after the
    instant the wait began. And it returns at most one decoded payload
    for each confirm frame that the receive task sends. *)
Theorem cycle_lasts_a_second
  (ethernet_MarshalBinary : ethernet.Frame -> list byte * option error)
  (conn_WriteTo : list byte -> HardwareAddr -> option error)
  (select_tie : Z -> bool) (iface_addr dest : HardwareAddr)
  (now t : Z) (frames : list (Z * HomeplugFrame.t))
  (ni : list HomeplugNetworkInfo.t)
  (Hret : get_homeplug_netinfo ethernet_MarshalBinary conn_WriteTo select_tie
            iface_addr dest now frames = Ret (t, (ni, None))) :
  (now + Second <= t)%Z /\
  length ni <=
    length (filter (fun a : Z * HomeplugFrame.t =>
                      array2_eqb (HomeplugFrame.MMEType (snd a)) nwInfoCnf)
              frames).
Proof.
  unfold get_homeplug_netinfo in Hret.
  destruct (write_homeplug_returns ethernet_MarshalBinary conn_WriteTo
              iface_addr dest) as [[e|] Hw];
    rewrite Hw in Hret; cbn [bind] in Hret; [discriminate|].
  destruct (ChanLoop select_tie now frames []) as [[t' ni']|e] eqn:E;
    cbn [bind] in Hret; [|discriminate].
  injection Hret as <- <-.
  destruct (ChanLoop_bounds select_tie frames now t' [] ni' E)
    as (Ht & added & -> & Hl).
  split; [exact Ht | exact Hl].
Qed.

Lemma cycle_lasts_a_second_witness :
  (0 + Second <= 1000000000)%Z /\
  length (@nil HomeplugNetworkInfo.t) <=
    length (filter (fun a : Z * HomeplugFrame.t =>
                      array2_eqb (HomeplugFrame.MMEType (snd a)) nwInfoCnf)
              [(2000000000%Z,
                HomeplugFrame.mk x00 nwInfoCnf hpVendor [x00; x00])]).
Proof.
  apply (cycle_lasts_a_second
           (fun f : ethernet.Frame => (ethernet.Payload f, None))
           (fun _ _ => None) (fun _ => true) (repeat x01 6) (repeat xff 6)
           0 1000000000
           [(2000000000%Z, HomeplugFrame.mk x00 nwInfoCnf hpVendor [x00; x00])]
           []).
  reflexivity.
Defined.

Lemma ChanLoop_panics (select_tie : Z -> bool)
  (received : list (Z * HomeplugFrame.t)) :
  forall (now t : Z) (h : HomeplugFrame.t) (later : list (Z * HomeplugFrame.t))
         (ni : list HomeplugNetworkInfo.t) (e : runtime_error),
  Cycle.under_a_second now (received ++ [(t, h)]) ->
  Forall (fun a => Cycle.parser_returns (snd a)) received ->
  HomeplugFrame.MMEType h = nwInfoCnf ->
  HomeplugNetworkInfo.UnmarshalBinary HomeplugNetworkInfo.zero
    (HomeplugFrame.Payload h) = Panic e ->
  ChanLoop select_tie now (received ++ (t, h) :: later) ni = Panic e.
Proof.
  induction received as [|[t0 h0] received IH];
    intros now t h later ni e Hgap Hret Hty Hpanic.
  - cbn [app Cycle.under_a_second] in Hgap. destruct Hgap as [Ht _].
    cbn [app ChanLoop]. apply Z.ltb_lt in Ht. rewrite Ht. cbn [orb].
    unfold on_frame. rewrite Hty, Hpanic. reflexivity.
  - cbn [app Cycle.under_a_second] in Hgap. destruct Hgap as [Ht Hgap].
    inversion Hret as [|a l Hh Hrest]; subst. cbn [snd] in Hh.
    cbn [app ChanLoop]. apply Z.ltb_lt in Ht. rewrite Ht. cbn [orb].
    rewrite (on_frame_records ni h0 Hh). cbn [bind].
    now apply IH.
Qed.

(** X11. A panic of the parser is a panic of the cycle: when the send
    has succeeded and the receive task sends, in time to be received, a
    confirm frame on whose payload the parser panics, the cycle panics
    too; nothing recovers it, whatever was collected before. The empty
    payload is such a payload. *)
Theorem cycle_panics_on_bad_confirm
  (ethernet_MarshalBinary : ethernet.Frame -> list byte * option error)
  (conn_WriteTo : list byte -> HardwareAddr -> option error)
  (select_tie : Z -> bool) (iface_addr dest : HardwareAddr)
  (now t : Z) (received later : list (Z * HomeplugFrame.t))
  (h : HomeplugFrame.t) (e : runtime_error)
  (Hsend : write_homeplug ethernet_MarshalBinary conn_WriteTo iface_addr dest =
             Ret None)
  (Hgaps : Cycle.under_a_second now (received ++ [(t, h)]))
  (Hret : Forall (fun a => Cycle.parser_returns (snd a)) received)
  (Hty : HomeplugFrame.MMEType h = nwInfoCnf)
  (Hpanic : HomeplugNetworkInfo.UnmarshalBinary HomeplugNetworkInfo.zero
              (HomeplugFrame.Payload h) = Panic e) :
  get_homeplug_netinfo ethernet_MarshalBinary conn_WriteTo select_tie
    iface_addr dest now (received ++ (t, h) :: later) = Panic e.
Proof.
  unfold get_homeplug_netinfo. rewrite Hsend. cbn [bind].
  now rewrite (ChanLoop_panics select_tie received now t h later [] e).
Qed.

Lemma cycle_panics_on_bad_confirm_witness :
  get_homeplug_netinfo
    (fun f : ethernet.Frame => (ethernet.Payload f, None))
    (fun _ _ => None) (fun _ => true) (repeat x01 6) (repeat xff 6) 0
    ([(100%Z, HomeplugFrame.mk x00 nwInfoCnf hpVendor [x00; x00])]
       ++ (200%Z, HomeplugFrame.mk x00 nwInfoCnf hpVendor []) :: []) =
  Panic IndexOutOfRange.
Proof.
  apply (cycle_panics_on_bad_confirm
           (fun f : ethernet.Frame => (ethernet.Payload f, None))
           (fun _ _ => None) (fun _ => true) (repeat x01 6) (repeat xff 6)
           0 200
           [(100%Z, HomeplugFrame.mk x00 nwInfoCnf hpVendor [x00; x00])] []
           (HomeplugFrame.mk x00 nwInfoCnf hpVendor []) IndexOutOfRange).
  - reflexivity.
  - cbn [app Cycle.under_a_second]. repeat split; reflexivity.
  - apply Forall_cons; [intros _; eexists; reflexivity | apply Forall_nil].
  - reflexivity.
  - reflexivity.
Defined.

Lemma array2_eqb_neq (a b : byte * byte) : a <> b -> array2_eqb a b = false.
Proof.
  destruct a as [a0 a1], b as [b0 b1]. intros H.
  unfold array2_eqb. cbn [fst snd].
  destruct (Byte.eqb a0 b0) eqn:E0; [|reflexivity].
  destruct (Byte.eqb a1 b1) eqn:E1; [|reflexivity].
  apply Byte.byte_dec_bl in E0, E1. subst. contradiction.
Qed.

(** X12. A frame of any other message type than the confirm never
    reaches the parser: whatever its payload, it leaves the result as
    it is and cannot make the cycle panic. Received in time, it still
    starts a new second of waiting. *)
Theorem other_frames_only_extend_wait (select_tie : Z -> bool)
  (h : HomeplugFrame.t) (Hty : HomeplugFrame.MMEType h <> nwInfoCnf)
  (ni : list HomeplugNetworkInfo.t) :
  on_frame ni h = Ret ni /\
  forall (now t : Z) (ch : list (Z * HomeplugFrame.t)),
    (t < now + Second)%Z ->
    ChanLoop select_tie now ((t, h) :: ch) ni =
    ChanLoop select_tie (Z.max now t) ch ni.
Proof.
  assert (Hon : on_frame ni h = Ret ni).
  { unfold on_frame. now rewrite (array2_eqb_neq _ _ Hty). }
  split; [exact Hon|].
  intros now t ch Ht. cbn [ChanLoop].
  apply Z.ltb_lt in Ht. rewrite Ht. cbn [orb].
  now rewrite Hon.
Qed.

Lemma other_frames_only_extend_wait_witness :
  on_frame [] (HomeplugFrame.mk x00 nwInfoReq hpVendor []) = Ret [] /\
  ChanLoop (fun _ => true) 0
    [(999999999%Z, HomeplugFrame.mk x00 nwInfoReq hpVendor [])] [] =
  ChanLoop (fun _ => true) 999999999 [] [].
Proof.
  destruct (other_frames_only_extend_wait (fun _ => true)
              (HomeplugFrame.mk x00 nwInfoReq hpVendor [])
              ltac:(discriminate) []) as [Hon Hloop].
  split; [exact Hon|].
  apply (Hloop 0%Z 999999999%Z []). reflexivity.
Defined.

(** ** The metrics of a scrape *)

Lemma rate_bytes_value (c : byte) :
  Exporter.rate_bytes c = (Z.of_N (Byte.to_N c) * 131072)%Z.
Proof.
  pose proof (byte_range c) as Hc.
  unfold Exporter.rate_bytes, Exporter.uint64.
  change (2 ^ 64)%Z with 18446744073709551616%Z.
  rewrite (Z.mod_small (Z.of_N (Byte.to_N c))) by lia.
  rewrite (Z.mod_small (Z.of_N (Byte.to_N c) * 1024)) by lia.
  rewrite (Z.mod_small (Z.of_N (Byte.to_N c) * 1024 * 1024)) by lia.
  replace (Z.of_N (Byte.to_N c) * 1024 * 1024)%Z
    with (Z.of_N (Byte.to_N c) * 131072 * 8)%Z by lia.
  apply Z.div_mul. lia.
Qed.

Section ScrapeProperties.

Variable BuildFQName : string -> string -> string -> string.
Variable hex_EncodeToString : list byte -> string.
Variable FormatInt : Z -> string.
Variable HardwareAddr_String : list byte -> string.
Variable ethernet_MarshalBinary : ethernet.Frame -> list byte * option error.
Variable conn_WriteTo : list byte -> HardwareAddr -> option error.
Variable select_tie : Z -> bool.



End ScrapeProperties.



(** X14. A scrape of a cycle whose send failed sends no metric at all:
    [collect] returns the error of the cycle and [Collect] drops it, at
    the instant the send returned. *)
Theorem collect_send_failure
  (hex_EncodeToString : list byte -> string) (FormatInt : Z -> string)
  (HardwareAddr_String : list byte -> string)
  (ethernet_MarshalBinary : ethernet.Frame -> list byte * option error)
  (conn_WriteTo : list byte -> HardwareAddr -> option error)
  (select_tie : Z -> bool) (e : Exporter_t) (now : Z)
  (frames : list (Z * HomeplugFrame.t)) (err : error)
  (Hsend : write_homeplug ethernet_MarshalBinary conn_WriteTo
             (net.HardwareAddr (iface e)) (dest e) = Ret (Some err)) :
  Exporter_collect hex_EncodeToString FormatInt HardwareAddr_String
    ethernet_MarshalBinary conn_WriteTo select_tie e now frames =
    Ret (now, ([], Some (Errorf "write_homeplug failed" err))) /\
  Exporter_Collect hex_EncodeToString FormatInt HardwareAddr_String
    ethernet_MarshalBinary conn_WriteTo select_tie e now frames =
    Ret (now, []).
Proof.
  unfold Exporter_Collect, Exporter_collect, get_homeplug_netinfo.
  rewrite Hsend. cbn [bind]. split; reflexivity.
Qed.

Lemma collect_send_failure_witness :
  Exporter_Collect (fun _ => "id"%string) (fun _ => "0"%string)
    (fun _ => "mac"%string)
    (fun f : ethernet.Frame => (ethernet.Payload f, None))
    (fun _ _ => Some (ErrIO "network is down")) (fun _ => true)
    (NewExporter (fun _ _ n => n)
       (net.mkInterface 2 1500 "eth0" (repeat x01 6) 1) (repeat xff 6))
    0 [(100%Z, HomeplugFrame.mk x00 nwInfoCnf hpVendor
                 ([x00; x01] ++ repeat x00 13 ++ [x64; x32]))] =
  Ret (0%Z, []).
Proof.
  apply (collect_send_failure (fun _ => "id"%string) (fun _ => "0"%string)
           (fun _ => "mac"%string)
           (fun f : ethernet.Frame => (ethernet.Payload f, None))
           (fun _ _ => Some (ErrIO "network is down")) (fun _ => true)
           (NewExporter (fun _ _ n => n)
              (net.mkInterface 2 1500 "eth0" (repeat x01 6) 1) (repeat xff 6))
           0
           [(100%Z, HomeplugFrame.mk x00 nwInfoCnf hpVendor
                      ([x00; x01] ++ repeat x00 13 ++ [x64; x32]))]
           (Errorf "failed to send message" (ErrIO "network is down"))).
  reflexivity.
Defined.

(** X15. Every metric that a scrape of [NewExporter]'s exporter sends is
    a gauge with as many label values as its descriptor has label
    names (three for a network, two for a station rate), and its value
    is an integer between 0 and [255 * 131072], which [float64] holds
    exactly. *)
Theorem collect_metrics_well_formed
  (BuildFQName : string -> string -> string -> string)
  (hex_EncodeToString : list byte -> string) (FormatInt : Z -> string)
  (HardwareAddr_String : list byte -> string)
  (ethernet_MarshalBinary : ethernet.Frame -> list byte * option error)
  (conn_WriteTo : list byte -> HardwareAddr -> option error)
  (select_tie : Z -> bool) (iface0 : net.Interface) (dest0 : HardwareAddr)
  (now t : Z) (frames : list (Z * HomeplugFrame.t))
  (metrics : list prometheus.Metric) (err : option error)
  (Hscrape : Exporter_collect hex_EncodeToString FormatInt HardwareAddr_String
               ethernet_MarshalBinary conn_WriteTo select_tie
               (NewExporter BuildFQName iface0 dest0) now frames =
             Ret (t, (metrics, err))) :
  Forall (fun m : prometheus.Metric =>
            prometheus.valueType m = prometheus.GaugeValue /\
            length (prometheus.labelValues m) =
              length (prometheus.variableLabels (prometheus.desc m)) /\
            (0 <= prometheus.value m <= 255 * 131072)%Z)
    metrics.
Proof.
  unfold Exporter_collect in Hscrape.
  destruct (get_homeplug_netinfo _ _ _ _ _ _ _) as [[t' [nis [e|]]]|e];
    cbn [bind] in Hscrape; try discriminate;
    injection Hscrape as <- <- <-; [apply Forall_nil|].
  apply Forall_forall. intros m Hm.
  apply in_flat_map in Hm. destruct Hm as (info & _ & Hm).
  unfold info_metrics in Hm. apply in_app_or in Hm. destruct Hm as [Hm|Hm].
  - apply in_map_iff in Hm. destruct Hm as (nw & <- & _).
    cbn [network_metric prometheus.valueType prometheus.labelValues
         prometheus.desc prometheus.value network NewExporter
         prometheus.variableLabels length].
    pose proof (byte_range (HomeplugNetworkStatus.ShortID nw)).
    repeat split; lia.
  - apply in_flat_map in Hm. destruct Hm as (st & _ & Hm).
    pose proof (byte_range (HomeplugStationStatus.TxRate st)).
    pose proof (byte_range (HomeplugStationStatus.RxRate st)).
    cbn [station_metrics In] in Hm. destruct Hm as [<- | [<- | []]];
      cbn [prometheus.valueType prometheus.labelValues prometheus.desc
           prometheus.value txRate rxRate NewExporter
           prometheus.variableLabels length];
      rewrite rate_bytes_value; repeat split; lia.
Qed.

Lemma collect_metrics_well_formed_witness :
  Forall (fun m : prometheus.Metric =>
            prometheus.valueType m = prometheus.GaugeValue /\
            length (prometheus.labelValues m) =
              length (prometheus.variableLabels (prometheus.desc m)) /\
            (0 <= prometheus.value m <= 255 * 131072)%Z)
    (flat_map
       (info_metrics (fun _ => "id"%string) (fun _ => "0"%string)
          (fun _ => "mac"%string)
          (NewExporter (fun _ _ n => n)
             (net.mkInterface 2 1500 "eth0" (repeat x01 6) 1) (repeat xff 6)))
       [HomeplugNetworkInfo.mk []
          [HomeplugStationStatus.mk (repeat x00 6) x00 (repeat x00 6) x64 x32]]).
Proof.
  apply (collect_metrics_well_formed (fun _ _ n => n) (fun _ => "id"%string)
           (fun _ => "0"%string) (fun _ => "mac"%string)
           (fun f : ethernet.Frame => (ethernet.Payload f, None))
           (fun _ _ => None) (fun _ => true)
           (net.mkInterface 2 1500 "eth0" (repeat x01 6) 1) (repeat xff 6)
           0 1000000100
           [(100%Z, HomeplugFrame.mk x00 nwInfoCnf hpVendor
                      ([x00; x01] ++ repeat x00 13 ++ [x64; x32]))]
           _ None).
  reflexivity.
Defined.

(** ** The choice of the interface *)

(** X16. With no [--interface] flag and a successful [net.Interfaces],
    the function returns the first interface of the list that is up
    and is not a loopback, all the interfaces before it being down or
    loopbacks; when the list has no such interface it returns the
    error "invalid network interface". Its argument plays no part. *)
Theorem default_interface_is_first_usable
  (net_InterfaceByName : string -> option net.Interface * option error)
  (FlagUp FlagLoopback : Z) (ifaces : list net.Interface) (name : string) :
  let usable := fun i : net.Interface =>
    Z.land (net.Flags i) FlagUp <> 0%Z /\
    Z.land (net.Flags i) FlagLoopback = 0%Z in
  let result :=
    get_interface_or_default (ifaces, None) net_InterfaceByName ""
      FlagUp FlagLoopback name in
  (exists (i : net.Interface) (before after : list net.Interface),
     result = (Some i, None) /\
     ifaces = before ++ i :: after /\
     Forall (fun j => ~ usable j) before /\ usable i) \/
  (result = (None, Some InvalidInterface) /\
   Forall (fun j => ~ usable j) ifaces).
Proof.
  intros usable result. subst result.
  unfold get_interface_or_default. cbn [String.eqb].
  induction ifaces as [|i ifaces IH]; cbn [first_usable].
  - right. split; [reflexivity | apply Forall_nil].
  - destruct (Z.land (net.Flags i) FlagUp =? 0)%Z eqn:Eup.
    + apply Z.eqb_eq in Eup.
      assert (Hi : ~ usable i) by (intros [Hu _]; contradiction).
      destruct IH as [(j & before & after & Hr & -> & Hb & Hj) | [Hr Hall]].
      * left. exists j, (i :: before), after.
        repeat split; try assumption; try apply Hj.
        now apply Forall_cons.
      * right. split; [exact Hr | now apply Forall_cons].
    + apply Z.eqb_neq in Eup.
      destruct (Z.land (net.Flags i) FlagLoopback =? 0)%Z eqn:Elo; cbn [negb].
      * apply Z.eqb_eq in Elo. left. exists i, [], ifaces.
        repeat split; try assumption. apply Forall_nil.
      * apply Z.eqb_neq in Elo.
        assert (Hi : ~ usable i) by (intros [_ Hl]; contradiction).
        destruct IH as [(j & before & after & Hr & -> & Hb & Hj) | [Hr Hall]].
        -- left. exists j, (i :: before), after.
           repeat split; try assumption; try apply Hj.
           now apply Forall_cons.
        -- right. split; [exact Hr | now apply Forall_cons].
Qed.

(** X17. With an [--interface] flag, the function returns what
    [net.InterfaceByName] returns for the flag: the interface is not
    checked for being up or for being a loopback, and neither
    [net.Interfaces] nor the argument of the function is looked at. *)
Theorem named_interface_is_not_checked
  (net_Interfaces : list net.Interface * option error)
  (net_InterfaceByName : string -> option net.Interface * option error)
  (interfaceName : string) (FlagUp FlagLoopback : Z) (name : string)
  (Hflag : interfaceName <> ""%string) :
  get_interface_or_default net_Interfaces net_InterfaceByName interfaceName
    FlagUp FlagLoopback name =
  match net_InterfaceByName interfaceName with
  | (_, Some err) => (None, Some (LibError err))
  | (i, None) => (i, None)
  end.
Proof.
  unfold get_interface_or_default.
  apply String.eqb_neq in Hflag. rewrite Hflag.
  destruct (net_InterfaceByName interfaceName) as [i [err|]]; reflexivity.
Qed.

Lemma named_interface_is_not_checked_witness :
  get_interface_or_default ([], None)
    (fun _ => (Some (net.mkInterface 1 65536 "lo" [] 4), None))
    "lo" 1 4 "eth0" =
  (Some (net.mkInterface 1 65536 "lo" [] 4), None).
Proof.
  apply (named_interface_is_not_checked ([], None)
           (fun _ => (Some (net.mkInterface 1 65536 "lo" [] 4), None))
           "lo" 1 4 "eth0").
  discriminate.
Defined.

(** ** The MAC address flag *)

(** X18. [Set] parses its argument after the names are resolved
    ([broadcast] and [all] stand for [ff:ff:ff:ff:ff:ff], [local] for
    [00:b0:52:00:00:01], any other string for itself) and stores only
    addresses of 6 bytes. With [s'] the resolved argument: when
    [net.ParseMAC s'] returns 6 bytes, they are stored and no error is
    returned; when it returns another number of bytes, the error is
    "Invalid address length"; when it returns an error, that error is
    returned; in both error cases the stored address is the one held
    before. *)
Theorem mac_set_stores_six_bytes
  (net_ParseMAC : string -> list byte * option error)
  (v0 : HardwareAddr) (s s' : string)
  (Hall : s = "broadcast"%string \/ s = "all"%string ->
          s' = "ff:ff:ff:ff:ff:ff"%string)
  (Hlocal : s = "local"%string -> s' = "00:b0:52:00:00:01"%string)
  (Hother : s <> "broadcast"%string -> s <> "all"%string ->
            s <> "local"%string -> s' = s) :
  (forall v : list byte,
     net_ParseMAC s' = (v, None) -> length v = 6 ->
     macAddressValue_Set net_ParseMAC v0 s = (v, None)) /\
  (forall v : list byte,
     net_ParseMAC s' = (v, None) -> length v <> 6 ->
     macAddressValue_Set net_ParseMAC v0 s = (v0, Some InvalidAddressLength)) /\
  (forall (v : list byte) (e : error),
     net_ParseMAC s' = (v, Some e) ->
     macAddressValue_Set net_ParseMAC v0 s = (v0, Some (ParseError e))) /\
  match macAddressValue_Set net_ParseMAC v0 s with
  | (v, None) => length v = 6 /\ net_ParseMAC s' = (v, None)
  | (v, Some _) => v = v0
  end /\
  macAddressValue_Set net_ParseMAC v0 "broadcast" =
    macAddressValue_Set net_ParseMAC v0 "ff:ff:ff:ff:ff:ff" /\
  macAddressValue_Set net_ParseMAC v0 "all" =
    macAddressValue_Set net_ParseMAC v0 "ff:ff:ff:ff:ff:ff" /\
  macAddressValue_Set net_ParseMAC v0 "local" =
    macAddressValue_Set net_ParseMAC v0 "00:b0:52:00:00:01".
Proof.
  assert (Hset : macAddressValue_Set net_ParseMAC v0 s =
                 let '(v, err) := net_ParseMAC s' in
                 if is_nil err && negb (length v =? 6)
                 then (v0, Some InvalidAddressLength)
                 else ((if is_nil err then v else v0), option_map ParseError err)).
  { unfold macAddressValue_Set.
    destruct (String.eqb_spec s "broadcast") as [Eb|Nb].
    - rewrite (Hall (or_introl Eb)). reflexivity.
    - destruct (String.eqb_spec s "all") as [Ea|Na].
      + rewrite (Hall (or_intror Ea)). reflexivity.
      + cbn [orb]. destruct (String.eqb_spec s "local") as [El|Nl].
        * rewrite (Hlocal El). reflexivity.
        * rewrite (Hother Nb Na Nl). reflexivity. }
  rewrite Hset.
  split; [|split; [|split; [|split; [|repeat split; reflexivity]]]].
  - intros v E Hlen. rewrite E. cbn [is_nil andb].
    apply Nat.eqb_eq in Hlen. now rewrite Hlen.
  - intros v E Hlen. rewrite E. cbn [is_nil andb].
    apply Nat.eqb_neq in Hlen. now rewrite Hlen.
  - intros v e E. rewrite E. reflexivity.
  - destruct (net_ParseMAC s') as [v [e|]] eqn:E; cbn [is_nil andb option_map].
    + reflexivity.
    + destruct (length v =? 6) eqn:El; cbn [negb].
      * apply Nat.eqb_eq in El. split; [exact El | reflexivity].
      * reflexivity.
Qed.

Lemma mac_set_stores_six_bytes_witness :
  let parse := fun s : string =>
    if String.eqb s "ff:ff:ff:ff:ff:ff" then (repeat xff 6, @None error)
    else if String.eqb s "00:b0:52:00:00:01"
         then ([x00; xb0; x52; x00; x00; x01], @None error)
         else if String.eqb s "00:00:00:00:fe:80:00:00"
              then (repeat x00 8, @None error)
              else ([], Some (ErrIO "invalid MAC address")) in
  macAddressValue_Set parse (repeat x01 6) "broadcast" = (repeat xff 6, None) /\
  macAddressValue_Set parse (repeat x01 6) "local" =
    ([x00; xb0; x52; x00; x00; x01], None) /\
  macAddressValue_Set parse (repeat x01 6) "00:00:00:00:fe:80:00:00" =
    (repeat x01 6, Some InvalidAddressLength) /\
  macAddressValue_Set parse (repeat x01 6) "nonsense" =
    (repeat x01 6, Some (ParseError (ErrIO "invalid MAC address"))).
Proof.
  intros parse.
  split; [|split; [|split]].
  - apply (proj1 (mac_set_stores_six_bytes parse (repeat x01 6)
                    "broadcast" "ff:ff:ff:ff:ff:ff"
                    (fun _ => eq_refl)
                    ltac:(discriminate)
                    ltac:(intros H; exfalso; apply H; reflexivity))
             (repeat xff 6)); reflexivity.
  - apply (proj1 (mac_set_stores_six_bytes parse (repeat x01 6)
                    "local" "00:b0:52:00:00:01"
                    ltac:(intros [H|H]; discriminate H)
                    (fun _ => eq_refl)
                    ltac:(intros _ _ H; exfalso; apply H; reflexivity))
             [x00; xb0; x52; x00; x00; x01]); reflexivity.
  - apply (proj1 (proj2 (mac_set_stores_six_bytes parse (repeat x01 6)
                    "00:00:00:00:fe:80:00:00" "00:00:00:00:fe:80:00:00"
                    ltac:(intros [H|H]; discriminate H)
                    ltac:(discriminate)
                    (fun _ _ _ => eq_refl)))
             (repeat x00 8)); [reflexivity | discriminate].
  - apply (proj1 (proj2 (proj2 (mac_set_stores_six_bytes parse (repeat x01 6)
                    "nonsense" "nonsense"
                    ltac:(intros [H|H]; discriminate H)
                    ltac:(discriminate)
                    (fun _ _ _ => eq_refl))))
             [] (ErrIO "invalid MAC address")); reflexivity.
Defined.
